(** * Order import: row normalisation, upsert and expiration notice

    A shallow embedding of [main.py]: the [Schema] dataclass that
    normalises one spreadsheet row, the [Test] table reached through the
    SQLAlchemy session, and [_save_to_db], the loop that merges every row
    and sends the expiration notice.

    Conventions of the embedding.
    - A Python [str] is a [string]; a character is a code point below 256.
    - A Python [int] is a [Z]; a Python [float] is a binary64 value, a
      [spec_float] at precision 53 and maximal exponent 1024.
    - A raised exception is the [Raise] result; the row loop stops at the
      first one, as the [for] statement does.
    - The database, the Telegram bot and the clock are outside the program:
      what they answer while one row is handled is a [RowEnv]. *)

From Stdlib Require Import ZArith String Ascii List Bool Lia.
From Stdlib Require Import Floats.SpecFloat.
From stdpp Require Import gmap strings.

Open Scope Z_scope.

(** ** Exceptions and results *)

Inductive exn : Type :=
| ValueError      (* int(), float(), strptime() on text they reject *)
| IndexError      (* args[i] on a row that is too short *)
| NotifierError   (* telegram_bot.send_message raised *)
| StorageError.   (* the session or the database raised *)

Inductive result (A : Type) : Type :=
| Ok (a : A)
| Raise (e : exn).

Arguments Ok {A} a.
Arguments Raise {A} e.

#[global] Instance result_ret : MRet result := fun A a => Ok a.
#[global] Instance result_bind : MBind result := fun A B f m =>
  match m with
  | Ok a => f a
  | Raise e => Raise e
  end.

Definition is_ok {A} (r : result A) : bool :=
  match r with Ok _ => true | Raise _ => false end.

(** ** Characters *)

Definition code (c : ascii) : Z := Z.of_N (N_of_ascii c).

(** Whitespace as [int] and [float] see it once the text went through
    [_PyUnicode_TransformDecimalAndSpaceToASCII]: the C-locale blanks, and
    below 256 the two further code points (NEL, NBSP) that are
    Unicode whitespace and are turned into a blank. *)
Definition py_isspace (c : ascii) : bool :=
  let n := code c in
  ((9 <=? n) && (n <=? 13)) || (n =? 32) || (n =? 133) || (n =? 160).

Definition is_digit (c : ascii) : bool :=
  let n := code c in (48 <=? n) && (n <=? 57).

Definition digit_value (c : ascii) : Z := code c - 48.

Definition is_underscore (c : ascii) : bool := code c =? 95.

Definition to_lower (c : ascii) : ascii :=
  let n := code c in
  if (65 <=? n) && (n <=? 90) then ascii_of_N (Z.to_N (n + 32)) else c.

Fixpoint lstrip (s : list ascii) : list ascii :=
  match s with
  | c :: t => if py_isspace c then lstrip t else s
  | [] => []
  end.

Definition rstrip (s : list ascii) : list ascii := rev (lstrip (rev s)).

(** ** [int(str)] in base 10 *)

(** Default of [sys.get_int_max_str_digits()]. *)
Definition int_max_str_digits : Z := 4300.

(** The scanning loop of [long_from_string_base]: digits and single
    underscores, with the value, the number of digits, whether the last
    character seen was an underscore, and the unread rest. [None] is the
    double underscore. *)
Fixpoint scan_int (prev_us : bool) (acc digits : Z) (s : list ascii)
  : option (Z * Z * bool * list ascii) :=
  match s with
  | c :: t =>
      if is_underscore c then
        if prev_us then None else scan_int true acc digits t
      else if is_digit c then
        scan_int false (10 * acc + digit_value c) (digits + 1) t
      else Some (acc, digits, prev_us, s)
  | [] => Some (acc, digits, prev_us, [])
  end.

(** An optional sign: whether it is the minus sign, and what follows. *)
Definition take_sign (s : list ascii) : bool * list ascii :=
  match s with
  | c :: t =>
      if Ascii.eqb c "-" then (true, t)
      else if Ascii.eqb c "+" then (false, t)
      else (false, s)
  | [] => (false, [])
  end.

(** [PyLong_FromString]: blanks, a sign, digits with single underscores
    between them, blanks, and nothing else. *)
Definition int_of_chars (s : list ascii) : result Z :=
  let '(neg, s) := take_sign (lstrip s) in
  match s with
  | c :: _ =>
      if is_underscore c then Raise ValueError          (* leading underscore *)
      else
        match scan_int false 0 0 s with
        | None => Raise ValueError
        | Some (v, digits, trailing_us, rest) =>
            if trailing_us then Raise ValueError
            else if digits =? 0 then Raise ValueError
            else
              match lstrip rest with
              | _ :: _ => Raise ValueError               (* junk after the digits *)
              | [] =>
                  if int_max_str_digits <? digits then Raise ValueError
                  else Ok (if neg then - v else v)
              end
        end
  | [] => Raise ValueError
  end.

Definition py_int (text : string) : result Z :=
  int_of_chars (list_ascii_of_string text).

(** ** [float]: binary64 *)

Definition prec : Z := 53.
Definition emax : Z := 1024.

Abbreviation float := spec_float.

(** [x * y] on two floats. *)
Definition float_mul (x y : float) : float := SFmul prec emax x y.

(** [x < 0.0] *)
Definition float_is_negative (x : float) : bool :=
  SFltb x (S754_zero false).

(** The binary64 nearest to [p / q], ties to even, overflowing to an
    infinity and underflowing to a subnormal or zero. *)
Definition round_ratio (neg : bool) (p q : positive) : float :=
  let '(m, e, l) := SFdiv_core_binary prec emax (Zpos p) 0 (Zpos q) 0 in
  binary_round_aux prec emax neg m e l.

(** The binary64 nearest to [(-1)^neg * m * 10^e10], for [0 <= m]. *)
Definition float_of_decimal (neg : bool) (m e10 : Z) : float :=
  match m with
  | Zpos p =>
      if 0 <=? e10 then round_ratio neg (p * Z.to_pos (10 ^ e10)) 1
      else round_ratio neg p (Z.to_pos (10 ^ (- e10)))
  | _ => S754_zero neg
  end.

(** ** [float(str)] *)

(** [_Py_string_to_number_with_underscores]: an underscore is dropped
    when it stands between two digits and is an error anywhere else.
    [prev] starts as the NUL character. *)
Fixpoint strip_underscores (prev : ascii) (s : list ascii) : option (list ascii) :=
  match s with
  | [] => if is_underscore prev then None else Some []
  | c :: t =>
      if is_underscore c then
        if is_digit prev then strip_underscores c t else None
      else if is_underscore prev && negb (is_digit c) then None
      else option_map (cons c) (strip_underscores c t)
  end.

(** The longest prefix of decimal digits, and what follows it. *)
Fixpoint span_digits (s : list ascii) : list ascii * list ascii :=
  match s with
  | c :: t =>
      if is_digit c then let '(ds, r) := span_digits t in (c :: ds, r)
      else ([], s)
  | [] => ([], [])
  end.

Definition digits_value (ds : list ascii) : Z :=
  fold_left (fun acc c => 10 * acc + digit_value c) ds 0.

Fixpoint drop_zeros (ds : list ascii) : list ascii :=
  match ds with
  | c :: t => if code c =? 48 then drop_zeros t else ds
  | [] => []
  end.

Definition MAX_DIGITS : Z := 1000000000.
Definition MAX_ABS_EXP : Z := 1100000000.

(** The exponent part read by [_Py_dg_strtod]: [e] or [E], a sign, digits.
    Without a digit the part is not read at all. *)
Definition take_exponent (s : list ascii) : Z * list ascii :=
  match s with
  | c :: t =>
      if (code c =? 101) || (code c =? 69) then
        let '(eneg, t1) := take_sign t in
        let '(ds, t2) := span_digits t1 in
        match ds with
        | [] => (0, s)
        | _ :: _ =>
            let a := digits_value ds in
            let a := if 10 ^ 9 <=? a then MAX_ABS_EXP else a in
            (if eneg then - a else a, t2)
        end
      else (0, s)
  | [] => (0, [])
  end.

(** [_Py_dg_strtod]: sign, digits, point, digits, exponent; the value is
    the decimal rounded once to the nearest binary64. [None] is the parse
    error (nothing read). *)
Definition strtod (s : list ascii) : option (float * list ascii) :=
  let '(neg, s1) := take_sign s in
  let '(ip, s2) := span_digits s1 in
  let '(fp, s3) :=
    match s2 with
    | "."%char :: t => span_digits t
    | _ => ([], s2)
    end in
  let ds := ip ++ fp in
  match ds with
  | [] => None
  | _ :: _ =>
      if (MAX_DIGITS <? Z.of_nat (length (drop_zeros ds)))
         || (MAX_DIGITS <? Z.of_nat (length fp)) then None
      else
        let '(e, s4) := take_exponent s3 in
        Some (float_of_decimal neg (digits_value ds) (e - Z.of_nat (length fp)), s4)
  end.

(** [case_insensitive_match]: [t] (lower case) is a prefix of [s] up to
    the case of letters; the answer is what follows it. *)
Fixpoint ci_prefix (t s : list ascii) : option (list ascii) :=
  match t, s with
  | [], _ => Some s
  | a :: t', c :: s' =>
      if Ascii.eqb (to_lower c) a then ci_prefix t' s' else None
  | _ :: _, [] => None
  end.

(** [_Py_parse_inf_or_nan] *)
Definition parse_inf_or_nan (s : list ascii) : option (float * list ascii) :=
  let '(neg, s1) := take_sign s in
  match ci_prefix (list_ascii_of_string "inf") s1 with
  | Some r =>
      match ci_prefix (list_ascii_of_string "inity") r with
      | Some r' => Some (S754_infinity neg, r')
      | None => Some (S754_infinity neg, r)
      end
  | None =>
      match ci_prefix (list_ascii_of_string "nan") s1 with
      | Some r => Some (S754_nan, r)
      | None => None
      end
  end.

(** [float(text)]: underscores, blanks on both sides, then a decimal
    literal or an infinity or a NaN filling the whole of what is left. *)
Definition py_float (text : string) : result float :=
  match strip_underscores Ascii.zero (list_ascii_of_string text) with
  | None => Raise ValueError
  | Some s =>
      let s := rstrip (lstrip s) in
      let parsed :=
        match strtod s with
        | Some r => Some r
        | None => parse_inf_or_nan s
        end in
      match parsed with
      | Some (x, []) => Ok x
      | _ => Raise ValueError
      end
  end.

(** ** [round(x, ndigits)] on a float, for [0 <= ndigits] *)

(** The integer nearest to [num / den], ties to the even one. *)
Definition round_half_even (num den : Z) : Z :=
  let q := num / den in
  let r := num mod den in
  match 2 * r ?= den with
  | Lt => q
  | Gt => q + 1
  | Eq => if Z.even q then q else q + 1
  end.

(** [float.__round__]: the value is rounded exactly to [ndigits] decimal
    places ([_Py_dg_dtoa] in mode 3) and the decimal is read back as a
    float; zeros, infinities and NaN round to themselves, and so does
    every float when [ndigits] is above [NDIGITS_MAX] (323). *)
Definition py_round (x : float) (ndigits : N) : float :=
  match x with
  | S754_finite s m e =>
      let nd := Z.of_N ndigits in
      if 323 <? nd then x
      else
        let num := Zpos m * 2 ^ Z.max e 0 * 10 ^ nd in
        let den := 2 ^ Z.max (- e) 0 in
        float_of_decimal s (round_half_even num den) (- nd)
  | _ => x
  end.

(** ** [datetime.date] *)

Record date : Type := mkdate { year : Z; month : Z; day : Z }.

Definition is_leap (y : Z) : bool :=
  (y mod 4 =? 0) && (negb (y mod 100 =? 0) || (y mod 400 =? 0)).

Definition days_in_month (y m : Z) : Z :=
  if m =? 2 then (if is_leap y then 29 else 28)
  else if (m =? 4) || (m =? 6) || (m =? 9) || (m =? 11) then 30
  else 31.

(** [_check_date_fields], with [MINYEAR = 1] and [MAXYEAR = 9999]. *)
Definition valid_date (y m d : Z) : bool :=
  (1 <=? y) && (y <=? 9999) && (1 <=? m) && (m <=? 12)
  && (1 <=? d) && (d <=? days_in_month y m).

Definition make_date (y m d : Z) : result date :=
  if valid_date y m d then Ok (mkdate y m d) else Raise ValueError.

(** [a < b] on dates: the order of [(year, month, day)]. *)
Definition date_lt (a b : date) : bool :=
  (year a <? year b)
  || ((year a =? year b)
      && ((month a <? month b)
          || ((month a =? month b) && (day a <? day b)))).

(** ** The regular expression of [_strptime] *)

Inductive regex : Type :=
| Lit (c : ascii)                     (* one given character *)
| Range (lo hi : ascii)               (* [lo-hi] *)
| AnyDigit                            (* \d *)
| Cat (r1 r2 : regex)
| Alt (r1 r2 : regex)                 (* r1|r2, r1 tried first *)
| Group (name : string) (r : regex).  (* (?P<name>r) *)

Definition captures : Type := list (string * list ascii).

(** The text between two positions of a match: [s] is what was unread
    when the group opened and [s'] what is unread when it closes. *)
Definition capture (s s' : list ascii) : list ascii :=
  firstn (length s - length s') s.

(** Backtracking match of [r] at the head of [s]; [k] gets what is
    left and the groups closed so far, and a [None] from it makes the
    matcher try the next alternative. *)
Fixpoint rmatch {X : Type} (r : regex) (s : list ascii) (caps : captures)
    (k : list ascii -> captures -> option X) : option X :=
  match r with
  | Lit c =>
      match s with
      | c' :: t => if Ascii.eqb c' c then k t caps else None
      | [] => None
      end
  | Range lo hi =>
      match s with
      | c' :: t =>
          if (code lo <=? code c') && (code c' <=? code hi) then k t caps else None
      | [] => None
      end
  | AnyDigit =>
      match s with
      | c' :: t => if is_digit c' then k t caps else None
      | [] => None
      end
  | Cat r1 r2 => rmatch r1 s caps (fun s' caps' => rmatch r2 s' caps' k)
  | Alt r1 r2 =>
      match rmatch r1 s caps k with
      | Some x => Some x
      | None => rmatch r2 s caps k
      end
  | Group name r1 =>
      rmatch r1 s caps (fun s' caps' =>
        k s' ((name, capture s s') :: caps'))
  end.

Definition group (caps : captures) (name : string) : list ascii :=
  match find (fun p => String.eqb (fst p) name) caps with
  | Some p => snd p
  | None => []
  end.

(** [%d]: [3[0-1]|[1-2]\d|0[1-9]|[1-9]| [1-9]] *)
Definition re_d : regex :=
  Alt (Cat (Lit "3") (Range "0" "1"))
 (Alt (Cat (Range "1" "2") AnyDigit)
 (Alt (Cat (Lit "0") (Range "1" "9"))
 (Alt (Range "1" "9")
      (Cat (Lit " ") (Range "1" "9"))))).

(** [%m]: [1[0-2]|0[1-9]|[1-9]] *)
Definition re_m : regex :=
  Alt (Cat (Lit "1") (Range "0" "2"))
 (Alt (Cat (Lit "0") (Range "1" "9"))
      (Range "1" "9")).

(** [%Y]: [\d\d\d\d] *)
Definition re_Y : regex := Cat AnyDigit (Cat AnyDigit (Cat AnyDigit AnyDigit)).

(** The pattern compiled from the format ["%d.%m.%Y"]:
    [(?P<d>...)\.(?P<m>...)\.(?P<Y>...)] *)
Definition format_regex : regex :=
  Cat (Group "d" re_d)
 (Cat (Lit ".")
 (Cat (Group "m" re_m)
 (Cat (Lit ".")
      (Group "Y" re_Y)))).

(** [datetime.datetime.strptime(data_string, "%d.%m.%Y").date()]: the
    pattern must match at the start and leave nothing unread, and the
    three numbers must be a date of the calendar. *)
Definition strptime (data_string : string) : result date :=
  match rmatch format_regex (list_ascii_of_string data_string) []
               (fun rest caps => Some (rest, caps)) with
  | None => Raise ValueError                 (* does not match format *)
  | Some (_ :: _, _) => Raise ValueError     (* unconverted data remains *)
  | Some ([], found) =>
      y ← int_of_chars (group found "Y");
      m ← int_of_chars (group found "m");
      d ← int_of_chars (group found "d");
      make_date y m d
  end.

(** ** The [Schema] dataclass: one normalised row *)

Module Schema.
Record t : Type := mk {
  id : Z;
  order_id : Z;
  cost_usd : float;
  delivery_date : date;
  cost_rur : float
}.

(** [args[i]] *)
Definition arg (args : list string) (i : nat) : result string :=
  match args !! i with
  | Some a => Ok a
  | None => Raise IndexError
  end.

(** [Schema(usd_rate, *args)]: the five assignments of [__init__], in
    their order; each one may raise and then the later ones do not run. *)
Definition __init__ (usd_rate : float) (args : list string) : result t :=
  a0 ← arg args 0;
  id ← py_int a0;
  a1 ← arg args 1;
  order_id ← py_int a1;
  a2 ← arg args 2;
  cost_usd ← py_float a2;
  let cost_rur := py_round (float_mul cost_usd usd_rate) 2 in
  a3 ← arg args 3;
  delivery_date ← strptime a3;
  Ok (mk id order_id cost_usd delivery_date cost_rur).
End Schema.

(** ** The [Test] table *)

Module Test.
Record t : Type := mk {
  id : Z;                 (* primary key *)
  order_id : Z;
  cost_usd : float;
  cost_rur : float;
  delivery_date : date;
  is_notified : bool      (* default=False *)
}.
End Test.

(** The committed content of the table, by primary key. *)
Abbreviation table := (gmap Z Test.t).

(** [db.merge] of the [Test] instance built from [asdict(row)]: it has
    the five attributes of the dataclass and no [is_notified]. Merging
    copies the attributes that are set onto the persistent row of the same
    primary key, so [is_notified] keeps the stored value there; without such a row
    a new one is added and the column default gives [False]. *)
Definition merge (db : table) (row : Schema.t) : Test.t :=
  Test.mk (Schema.id row) (Schema.order_id row) (Schema.cost_usd row)
          (Schema.cost_rur row) (Schema.delivery_date row)
          match db !! Schema.id row with
          | Some stored => Test.is_notified stored
          | None => false
          end.

(** The table after [db.commit()] with [obj] pending. The table keeps
    the attributes as they were set: what the column types ([Integer],
    [Float(precision=2)], [Date]) and the database engine make of a value
    is not part of the embedding. *)
Definition commit (db : table) (obj : Test.t) : table :=
  <[Test.id obj := obj]> db.

(** [merge] then [commit]: the upsert of one row. *)
Definition upsert (db : table) (row : Schema.t) : table :=
  commit db (merge db row).

(** [obj.is_notified = True] *)
Definition set_notified (obj : Test.t) : Test.t :=
  Test.mk (Test.id obj) (Test.order_id obj) (Test.cost_usd obj)
          (Test.cost_rur obj) (Test.delivery_date obj) true.

(** ** The body of the loop of [_save_to_db] *)

(** What the world outside answers while one row is handled. *)
Record RowEnv : Type := {
  today : date;        (* datetime.date.today() *)
  upsert_ok : bool;    (* db.merge and the first db.commit() go through *)
  refresh_ok : bool;   (* the expired obj is read back (expire_on_commit) *)
  notify_ok : bool;    (* telegram_bot.send_message returns *)
  flag_ok : bool       (* the second db.commit() goes through *)
}.

Inductive event : Type :=
| Commit (obj : Test.t)            (* a db.commit() that went through *)
| Notify (id : Z) (d : date).      (* a call of the notice service *)

(** The table, what happened, and how the body ended. *)
Record outcome : Type := mkout {
  out_db : table;
  out_trace : list event;
  out_result : result ()
}.

(** The expiration test on the row read back after the commit. *)
Definition expired (env : RowEnv) (obj : Test.t) : bool :=
  negb (Test.is_notified obj) && date_lt (Test.delivery_date obj) (today env).

(** [_notify_about_delivery_date_expiration(obj)]: one message to the
    chat, naming the order and its delivery date; it raises when the bot
    does. *)
Definition _notify_about_delivery_date_expiration (env : RowEnv) (obj : Test.t)
  : list event * result () :=
  ([Notify (Test.id obj) (Test.delivery_date obj)],
   if notify_ok env then Ok () else Raise NotifierError).

(** The body: merge and commit, then the expiration test on the row read
    back, the notice, the flag and the second commit. A statement that
    raises ends the body with the table as the last commit left it. *)
Definition process_row (env : RowEnv) (db : table) (row : Schema.t) : outcome :=
  if negb (upsert_ok env) then mkout db [] (Raise StorageError)
  else
    let obj := merge db row in
    let db1 := commit db obj in
    if negb (refresh_ok env) then mkout db1 [Commit obj] (Raise StorageError)
    else if expired env obj then
      let '(sent, answer) := _notify_about_delivery_date_expiration env obj in
      match answer with
      | Raise e => mkout db1 (Commit obj :: sent) (Raise e)
      | Ok _ =>
          let obj' := set_notified obj in
          if negb (flag_ok env) then
            mkout db1 (Commit obj :: sent) (Raise StorageError)
          else
            mkout (commit db1 obj') (Commit obj :: sent ++ [Commit obj']) (Ok ())
      end
    else mkout db1 [Commit obj] (Ok ()).

(** ** [_save_to_db] *)

(** The [for] loop over the generator: the k-th row is normalised when
    the loop asks for it, that is after the body has finished on the rows
    before it, and an exception leaves the loop. *)
Fixpoint save_rows (env : nat -> RowEnv) (k : nat) (db : table)
    (rows : list (list string)) (usd_rate : float) : outcome :=
  match rows with
  | [] => mkout db [] (Ok ())
  | raw :: rest =>
      match Schema.__init__ usd_rate raw with
      | Raise e => mkout db [] (Raise e)
      | Ok row =>
          let o := process_row (env k) db row in
          match out_result o with
          | Raise e => o
          | Ok _ =>
              let o' := save_rows env (S k) (out_db o) rest usd_rate in
              mkout (out_db o') (out_trace o ++ out_trace o') (out_result o')
          end
      end
  end.

(** [rows[1:]]: the header row is left out. *)
Definition _save_to_db (env : nat -> RowEnv) (db : table)
    (rows : list (list string)) (usd_rate : float) : outcome :=
  save_rows env 0 db (tail rows) usd_rate.

(** ** Notions used to state the properties *)

(** The calls of the notice service in a trace, in order. *)
Definition notify_calls (tr : list event) : list (Z * date) :=
  omap (fun ev => match ev with
                  | Notify i d => Some (i, d)
                  | Commit _ => None
                  end) tr.

(** The delivery dates notified for one primary key in a trace. *)
Definition calls_for (i : Z) (tr : list event) : list date :=
  omap (fun ev => match ev with
                  | Notify j d => if decide (j = i) then Some d else None
                  | Commit _ => None
                  end) tr.

(** The flag commits in a trace: the commits that store [is_notified]. *)
Definition flag_commits (tr : list event) : list Z :=
  omap (fun ev => match ev with
                  | Commit obj => if Test.is_notified obj then Some (Test.id obj) else None
                  | Notify _ _ => None
                  end) tr.

(** No collaborator fails while this row is handled. *)
Definition quiet (env : RowEnv) : bool :=
  upsert_ok env && refresh_ok env && notify_ok env && flag_ok env.

(** A raw row that normalises. *)
Definition valid_row (usd_rate : float) (raw : list string) : bool :=
  is_ok (Schema.__init__ usd_rate raw).

(** The primary key a raw row normalises to, if it does. *)
Definition row_id (usd_rate : float) (raw : list string) : option Z :=
  match Schema.__init__ usd_rate raw with
  | Ok row => Some (Schema.id row)
  | Raise _ => None
  end.

(** The stored flag of a primary key. *)
Definition notified_at (db : table) (i : Z) : option bool :=
  Test.is_notified <$> db !! i.

(** The stored local-currency cost of a primary key. *)
Definition cost_rur_at (db : table) (i : Z) : option float :=
  Test.cost_rur <$> db !! i.

(** The words of a regular expression, groups apart. *)
Fixpoint lang (r : regex) (w : list ascii) : Prop :=
  match r with
  | Lit c => w = [c]
  | Range lo hi => exists c, w = [c] /\ code lo <= code c <= code hi
  | AnyDigit => exists c, w = [c] /\ is_digit c = true
  | Cat r1 r2 => exists w1 w2, w = w1 ++ w2 /\ lang r1 w1 /\ lang r2 w2
  | Alt r1 r2 => lang r1 w \/ lang r2 w
  | Group _ r1 => lang r1 w
  end.

Fixpoint group_free (r : regex) : bool :=
  match r with
  | Lit _ | Range _ _ | AnyDigit => true
  | Cat r1 r2 | Alt r1 r2 => group_free r1 && group_free r2
  | Group _ _ => false
  end.

(** The date pattern in its strictest reading, [dd.mm.yyyy]: two digits,
    a point, two digits, a point, four digits. *)
Definition is_dd_mm_yyyy (text : string) : bool :=
  match list_ascii_of_string text with
  | [d1; d2; p1; m1; m2; p2; y1; y2; y3; y4] =>
      is_digit d1 && is_digit d2 && Ascii.eqb p1 "." &&
      is_digit m1 && is_digit m2 && Ascii.eqb p2 "." &&
      is_digit y1 && is_digit y2 && is_digit y3 && is_digit y4
  | _ => false
  end.

(** The texts that [%d], [%m] and [%Y] accept, with the number read. *)
Inductive day_text : list ascii -> Z -> Prop :=
| day_one c :
    is_digit c = true -> 1 <= digit_value c ->
    day_text [c] (digit_value c)
| day_padded c :
    is_digit c = true -> 1 <= digit_value c ->
    day_text [" "%char; c] (digit_value c)
| day_two c1 c2 :
    is_digit c1 = true -> is_digit c2 = true ->
    1 <= 10 * digit_value c1 + digit_value c2 <= 31 ->
    day_text [c1; c2] (10 * digit_value c1 + digit_value c2).

Inductive month_text : list ascii -> Z -> Prop :=
| month_one c :
    is_digit c = true -> 1 <= digit_value c ->
    month_text [c] (digit_value c)
| month_two c1 c2 :
    is_digit c1 = true -> is_digit c2 = true ->
    1 <= 10 * digit_value c1 + digit_value c2 <= 12 ->
    month_text [c1; c2] (10 * digit_value c1 + digit_value c2).

Inductive year_text : list ascii -> Z -> Prop :=
| year_four c1 c2 c3 c4 :
    is_digit c1 = true -> is_digit c2 = true ->
    is_digit c3 = true -> is_digit c4 = true ->
    year_text [c1; c2; c3; c4]
      (1000 * digit_value c1 + 100 * digit_value c2 + 10 * digit_value c3 + digit_value c4).

(** Day, point, month, point, year, naming a date of the calendar. *)
Definition dmy_text (text : string) (d : date) : Prop :=
  exists sd sm sy,
    list_ascii_of_string text = sd ++ "."%char :: sm ++ "."%char :: sy
    /\ day_text sd (day d) /\ month_text sm (month d) /\ year_text sy (year d)
    /\ valid_date (year d) (month d) (day d) = true.

(** The fields present among the first three all parse. *)
Definition present_fields_parse (args : list string) : bool :=
  match args with
  | [] => true
  | [a0] => is_ok (py_int a0)
  | [a0; a1] => is_ok (py_int a0) && is_ok (py_int a1)
  | a0 :: a1 :: a2 :: _ => is_ok (py_int a0) && is_ok (py_int a1) && is_ok (py_float a2)
  end.

(** ** Values of the examples *)

(** 90.0, 95.0, 50.0, 4500.0, 4750.0, -5.0 and -450.0 as binary64. *)
Definition f90 : float := S754_finite false 6333186975989760 (-46).
Definition f95 : float := S754_finite false 6685030696878080 (-46).
Definition f50 : float := S754_finite false 7036874417766400 (-47).
Definition f4500 : float := S754_finite false 4947802324992000 (-40).
Definition f4750 : float := S754_finite false 5222680231936000 (-40).
Definition fminus5 : float := S754_finite true 5629499534213120 (-50).
Definition fminus450 : float := S754_finite true 7916483719987200 (-44).

Definition header : list string := ["id"; "order"; "cost"; "date"]%string.
Definition row7 : list string := ["7"; "1001"; "50.00"; "01.01.2020"]%string.
Definition row8 : list string := ["8"; "1002"; "10.50"; "31.12.2999"]%string.
Definition row_bad_id : list string := ["x"; "1003"; "1.00"; "01.01.2020"]%string.
Definition row_negative : list string := ["9"; "1004"; "-5"; "01.01.2020"]%string.
Definition row_short_date : list string := ["7"; "1001"; "50.00"; "1.1.2020"]%string.
Definition row_bad_cost : list string := ["9"; "1004"; "abc"; "01.01.2020"]%string.
Definition row_bad_date : list string := ["7"; "1001"; "50.00"; "2020-01-01"]%string.
Definition row_three_fields : list string := ["x"; "1003"; "1.00"]%string.
Definition row_two_fields : list string := ["7"; "1001"]%string.
Definition row_five_fields : list string :=
  ["7"; "1001"; "50.00"; "01.01.2020"; "note"]%string.

Definition day_2020_01_01 : date := mkdate 2020 1 1.
Definition day_2024_06_15 : date := mkdate 2024 6 15.

(** Every collaborator answers, on the 15th of June 2024. *)
Definition env_quiet : RowEnv := Build_RowEnv day_2024_06_15 true true true true.
(** The notice service raises. *)
Definition env_bot_down : RowEnv := Build_RowEnv day_2024_06_15 true true false true.

Definition rec7 : Schema.t := Schema.mk 7 1001 f50 day_2020_01_01 f4500.
Definition rec7_at_95 : Schema.t := Schema.mk 7 1001 f50 day_2020_01_01 f4750.
Definition rec9 : Schema.t := Schema.mk 9 1004 fminus5 day_2020_01_01 fminus450.
Definition obj7 (notified : bool) : Test.t :=
  Test.mk 7 1001 f50 f4500 day_2020_01_01 notified.

(** A table holding the order 7 alone. *)
Definition db7 (notified : bool) : table := {[ 7 := obj7 notified ]}.

Definition all_quiet (k : nat) : RowEnv := env_quiet.
(** The notice service raises for the row at position [n] only. *)
Definition bot_down_at (n k : nat) : RowEnv :=
  if (k =? n)%nat then env_bot_down else env_quiet.

(** ** [_get_usd_currency_rate]: the rate read in the feed *)

(** What is left of [s] after the prefix [p], if [s] begins with it. *)
Fixpoint strip_prefix (p s : list ascii) : option (list ascii) :=
  match p, s with
  | [], _ => Some s
  | a :: p', c :: s' => if Ascii.eqb c a then strip_prefix p' s' else None
  | _ :: _, [] => None
  end.

Definition is_prefix (p s : list ascii) : bool :=
  match strip_prefix p s with Some _ => true | None => false end.

(** [p] is found somewhere in [s]. *)
Fixpoint occurs (p s : list ascii) : bool :=
  is_prefix p s || match s with _ :: t => occurs p t | [] => false end.

Definition is_newline (c : ascii) : bool := code c =? 10.
Definition is_less_than (c : ascii) : bool := code c =? 60.

Definition USD : list ascii := list_ascii_of_string "USD".
Definition Value_tag : list ascii := list_ascii_of_string "<Value>".

(** [[^<]+], greedy: the longest run of characters other than [<], and
    what follows it. *)
Fixpoint span_value (s : list ascii) : list ascii * list ascii :=
  match s with
  | c :: t =>
      if is_less_than c then ([], s)
      else let '(v, r) := span_value t in (c :: v, r)
  | [] => ([], [])
  end.

(** [<Value>([^<]+)] at the head of [s]: the text of the group. *)
Definition value_group (s : list ascii) : option (list ascii) :=
  match strip_prefix Value_tag s with
  | Some r =>
      match span_value r with
      | ([], _) => None
      | (v, _) => Some v
      end
  | None => None
  end.

(** [.+?] once it has read a character: the end of the pattern is tried
    here first, and one character further when it does not match; [.]
    reads no newline. *)
Fixpoint lazy_scan (s : list ascii) : option (list ascii) :=
  match value_group s with
  | Some v => Some v
  | None =>
      match s with
      | c :: t => if is_newline c then None else lazy_scan t
      | [] => None
      end
  end.

(** The pattern [USD.+?<Value>([^<]+)] at the head of [s]. *)
Definition match_usd (s : list ascii) : option (list ascii) :=
  match strip_prefix USD s with
  | Some (c :: t) => if is_newline c then None else lazy_scan t
  | _ => None
  end.

(** [re.search(pattern, xml)]: the match at the first position that has
    one; the answer is [group(1)]. *)
Fixpoint re_search (s : list ascii) : option (list ascii) :=
  match match_usd s with
  | Some v => Some v
  | None =>
      match s with
      | _ :: t => re_search t
      | [] => None
      end
  end.

(** [usd_str.replace(",", ".")] *)
Definition replace_comma (s : list ascii) : list ascii :=
  map (fun c => if Ascii.eqb c "," then "."%char else c) s.

(** The exceptions of the periodic job: those of the rows, and those of
    the two fetches. *)
Inductive job_exn : Type :=
| AttributeError       (* re.search gave None: None has no group *)
| RowError (e : exn)   (* raised by float() or inside _save_to_db *)
| SheetError           (* gspread raised *)
| FeedError.           (* requests.get raised *)

Inductive job_result (A : Type) : Type :=
| Done (a : A)
| Failed (e : job_exn).

Arguments Done {A} a.
Arguments Failed {A} e.

(** [_get_usd_currency_rate] on the text of the response. *)
Definition _get_usd_currency_rate (xml : string) : job_result float :=
  match re_search (list_ascii_of_string xml) with
  | None => Failed AttributeError
  | Some usd_str =>
      match py_float (string_of_list_ascii (replace_comma usd_str)) with
      | Ok x => Done x
      | Raise e => Failed (RowError e)
      end
  end.

(** ** [job_update_date]: one run of the periodic job *)

(** What the world outside answers during one run: the sheet, the feed
    ([None] when the fetch raises), and the answers met row by row. *)
Record JobEnv : Type := {
  sheet_answer : option (list (list string));   (* _get_order_data() *)
  feed_answer : option string;                  (* requests.get(...).text *)
  row_env : nat -> RowEnv
}.

Record job_outcome : Type := mkjob {
  job_db : table;
  job_trace : list event;
  job_end : job_result ()
}.

(** The three statements of the job, in their order. *)
Definition job_update_date (env : JobEnv) (db : table) : job_outcome :=
  match sheet_answer env with
  | None => mkjob db [] (Failed SheetError)
  | Some rows =>
      match feed_answer env with
      | None => mkjob db [] (Failed FeedError)
      | Some xml =>
          match _get_usd_currency_rate xml with
          | Failed e => mkjob db [] (Failed e)
          | Done usd_rate =>
              let o := _save_to_db (row_env env) db rows usd_rate in
              mkjob (out_db o) (out_trace o)
                    match out_result o with
                    | Ok _ => Done ()
                    | Raise e => Failed (RowError e)
                    end
          end
      end
  end.

(** ** Further notions used to state properties *)

(** The table obtained by applying the commits of a trace in order. *)
Definition replay (tr : list event) (db : table) : table :=
  fold_left (fun d ev => match ev with
                         | Commit obj => commit d obj
                         | Notify _ _ => d
                         end) tr db.

(** A stored row carries the five attributes of a normalised row. *)
Definition from_row (row : Schema.t) (obj : Test.t) : Prop :=
  Test.id obj = Schema.id row
  /\ Test.order_id obj = Schema.order_id row
  /\ Test.cost_usd obj = Schema.cost_usd row
  /\ Test.cost_rur obj = Schema.cost_rur row
  /\ Test.delivery_date obj = Schema.delivery_date row.

(** The stored row of a normalised row, with a given flag. *)
Definition as_stored (row : Schema.t) (flag : bool) : Test.t :=
  Test.mk (Schema.id row) (Schema.order_id row) (Schema.cost_usd row)
          (Schema.cost_rur row) (Schema.delivery_date row) flag.

(** The stored flag of a primary key, [false] for a key that is not there. *)
Definition flag_of (db : table) (i : Z) : bool :=
  match db !! i with
  | Some stored => Test.is_notified stored
  | None => false
  end.

(** Every row of the sheet is already notified or not due on its turn. *)
Definition settled (env : nat -> RowEnv) (k : nat) (db : table)
    (rows : list (list string)) (usd_rate : float) : Prop :=
  forall j raw row,
    rows !! j = Some raw -> Schema.__init__ usd_rate raw = Ok row ->
    flag_of db (Schema.id row) = true
    \/ date_lt (Schema.delivery_date row) (today (env (k + j)%nat)) = false.

(** The last row of the sheet that normalises to a given primary key. *)
Fixpoint last_with (usd_rate : float) (i : Z) (rows : list (list string))
  : option Schema.t :=
  match rows with
  | [] => None
  | raw :: rest =>
      match last_with usd_rate i rest with
      | Some row => Some row
      | None =>
          match Schema.__init__ usd_rate raw with
          | Ok row => if decide (Schema.id row = i) then Some row else None
          | Raise _ => None
          end
      end
  end.

(** The characters found in the texts that [float] accepts: digits,
    blanks, the underscore, the signs, the point, and the letters of the
    exponent and of inf, infinity and nan in either case. *)
Definition float_char (c : ascii) : bool :=
  is_digit c || py_isspace c || is_underscore c
  || existsb (Ascii.eqb c) (list_ascii_of_string "+-.")
  || existsb (Ascii.eqb (to_lower c)) (list_ascii_of_string "einftya").

(** The characters found in the texts that [int] accepts. *)
Definition int_char (c : ascii) : bool :=
  is_digit c || py_isspace c || is_underscore c
  || existsb (Ascii.eqb c) (list_ascii_of_string "+-").

(** A response of the feed, cut to two currencies. *)
Definition feed_sample : string :=
  "<ValCurs><Valute><CharCode>AUD</CharCode><Value>59,1234</Value></Valute><Valute><CharCode>USD</CharCode><Nominal>1</Nominal><Value>90,0000</Value></Valute></ValCurs>".
Definition feed_without_usd : string :=
  "<ValCurs><Valute><CharCode>AUD</CharCode><Value>59,1234</Value></Valute></ValCurs>".

Definition job_env_sample : JobEnv :=
  Build_JobEnv (Some [header; row7; row8]) (Some feed_sample) all_quiet.
Definition job_env_no_usd : JobEnv :=
  Build_JobEnv (Some [header; row7; row8]) (Some feed_without_usd) all_quiet.


(** * Properties *)

(** ** The built-in functions on small inputs *)

Example py_int_examples :
  map py_int ["7"; " 1_001 "; "-5"; "+5"; "007"; "1__0"; "_1"; "1_"; ""; "- 5";
              "5 5"; "1.0"; "x"]%string
  = [Ok 7; Ok 1001; Ok (-5); Ok 5; Ok 7; Raise ValueError; Raise ValueError;
     Raise ValueError; Raise ValueError; Raise ValueError; Raise ValueError;
     Raise ValueError; Raise ValueError].
Proof. vm_compute. reflexivity. Qed.

Example py_float_examples :
  map py_float ["50.00"; "90.00"; " 5_0.0e0 "; "-5"; ".5e2"; "nan"; "-Infinity";
                "1e400"; "-0"; "1e"; "."; "infin"; "1__0"; "0x10"; "12,5"; "";
                "abc"]%string
  = [Ok f50; Ok f90; Ok f50; Ok fminus5; Ok f50; Ok S754_nan;
     Ok (S754_infinity true); Ok (S754_infinity false); Ok (S754_zero true);
     Raise ValueError; Raise ValueError; Raise ValueError; Raise ValueError;
     Raise ValueError; Raise ValueError; Raise ValueError; Raise ValueError].
Proof. vm_compute. reflexivity. Qed.

(** [round(2.675, 2)] is 2.67 and [round(0.125, 2)] is 0.12, as in Python. *)
Example py_round_examples :
  (x ← py_float "2.675"; Ok (py_round x 2)) = py_float "2.67"
  /\ (x ← py_float "0.125"; Ok (py_round x 2)) = py_float "0.12"
  /\ (x ← py_float "0.375"; Ok (py_round x 2)) = py_float "0.38"
  /\ (x ← py_float "-0.001"; Ok (py_round x 2)) = py_float "-0.0"
  /\ py_round (float_mul f50 f90) 2 = f4500
  /\ py_round (float_mul fminus5 f90) 2 = fminus450.
Proof. repeat split; vm_compute; reflexivity. Qed.

Example strptime_examples :
  map strptime ["01.01.2020"; "1.1.2020"; " 1.1.2020"; "29.02.2020"; "29.02.2021";
                "31.04.2020"; "2020-01-01"; "01.01.20"; "01.01.2020 "; "01/01/2020";
                "32.01.2020"; "00.01.2020"; "30.13.2020"; "01.01.0000"]%string
  = [Ok (mkdate 2020 1 1); Ok (mkdate 2020 1 1); Ok (mkdate 2020 1 1);
     Ok (mkdate 2020 2 29); Raise ValueError; Raise ValueError; Raise ValueError;
     Raise ValueError; Raise ValueError; Raise ValueError; Raise ValueError;
     Raise ValueError; Raise ValueError; Raise ValueError].
Proof. vm_compute. reflexivity. Qed.

(** ** The table under [upsert] *)

Section Store.
Implicit Types (db : table) (row : Schema.t) (obj : Test.t) (i : Z).

Lemma commit_lookup db obj : commit db obj !! Test.id obj = Some obj.
Proof. unfold commit. apply lookup_insert_eq. Qed.

Lemma commit_lookup_ne db obj i :
  i ≠ Test.id obj -> commit db obj !! i = db !! i.
Proof. intros Hne. unfold commit. by rewrite lookup_insert_ne. Qed.

Lemma upsert_lookup db row : upsert db row !! Schema.id row = Some (merge db row).
Proof. unfold upsert. apply (commit_lookup db (merge db row)). Qed.

Lemma upsert_lookup_ne db row i :
  i ≠ Schema.id row -> upsert db row !! i = db !! i.
Proof. intros Hne. unfold upsert. by apply commit_lookup_ne. Qed.

Lemma merge_keeps_flag db row stored :
  db !! Schema.id row = Some stored ->
  Test.is_notified (merge db row) = Test.is_notified stored.
Proof. intros Hs. unfold merge. simpl. by rewrite Hs. Qed.

Lemma merge_fresh db row :
  db !! Schema.id row = None -> Test.is_notified (merge db row) = false.
Proof. intros Hs. unfold merge. simpl. by rewrite Hs. Qed.

Lemma merge_upsert db row : merge (upsert db row) row = merge db row.
Proof. unfold merge at 1. by rewrite upsert_lookup. Qed.

Lemma flag_commit_lookup db row :
  commit (upsert db row) (set_notified (merge db row)) !! Schema.id row
  = Some (set_notified (merge db row)).
Proof. exact (commit_lookup (upsert db row) (set_notified (merge db row))). Qed.

Lemma flag_commit_lookup_ne db row i :
  i ≠ Schema.id row ->
  commit (upsert db row) (set_notified (merge db row)) !! i = db !! i.
Proof.
  intros Hne. rewrite commit_lookup_ne; [|exact Hne]. by apply upsert_lookup_ne.
Qed.

Lemma upsert_notified_at db row i b :
  notified_at db i = Some b -> notified_at (upsert db row) i = Some b.
Proof.
  unfold notified_at. intros Hb.
  destruct (decide (i = Schema.id row)) as [->|Hne].
  - rewrite upsert_lookup.
    destruct (db !! Schema.id row) as [stored|] eqn:Hs; [|discriminate].
    change (Some (Test.is_notified (merge db row)) = Some b).
    rewrite (merge_keeps_flag _ _ _ Hs). exact Hb.
  - by rewrite upsert_lookup_ne.
Qed.

Lemma fold_upsert_notified_at (l : list Schema.t) db i b :
  notified_at db i = Some b -> notified_at (fold_left upsert l db) i = Some b.
Proof.
  revert db. induction l as [|row l IH]; intros db Hb; simpl; [exact Hb|].
  apply IH. by apply upsert_notified_at.
Qed.
End Store.

(** ** One turn of the loop *)

Section Row.
Implicit Types (env : RowEnv) (db : table) (row : Schema.t) (i : Z).

(** The table after the body is the table before it, the upserted
    table, or the upserted table with the flag stored on top. *)
Lemma process_row_db env db row :
  out_db (process_row env db row) = db
  \/ out_db (process_row env db row) = upsert db row
  \/ (expired env (merge db row) = true
      /\ out_db (process_row env db row)
         = commit (upsert db row) (set_notified (merge db row))).
Proof.
  unfold process_row, _notify_about_delivery_date_expiration.
  destruct (upsert_ok env); simpl; [|by left].
  destruct (refresh_ok env); simpl; [|by right; left].
  destruct (expired env (merge db row)) eqn:He; [|by right; left].
  destruct (notify_ok env); simpl; [|by right; left].
  destruct (flag_ok env); simpl; [|by right; left].
  right; right. done.
Qed.

Lemma process_row_lookup_ne env db row i :
  i ≠ Schema.id row -> out_db (process_row env db row) !! i = db !! i.
Proof.
  intros Hne.
  destruct (process_row_db env db row) as [-> | [-> | [_ ->]]]; [done| |].
  - by apply upsert_lookup_ne.
  - by apply flag_commit_lookup_ne.
Qed.

Lemma process_row_keeps_notified env db row i :
  notified_at db i = Some true ->
  notified_at (out_db (process_row env db row)) i = Some true.
Proof.
  intros Hn.
  destruct (process_row_db env db row) as [-> | [-> | [_ ->]]]; [done| |].
  - by apply upsert_notified_at.
  - unfold notified_at.
    destruct (decide (i = Schema.id row)) as [->|Hne].
    + by rewrite flag_commit_lookup.
    + rewrite flag_commit_lookup_ne; [exact Hn|exact Hne].
Qed.
End Row.

(** ** The whole loop *)

Section Loop.
Implicit Types (env : nat -> RowEnv) (db : table) (rows : list (list string)).

Lemma save_rows_keeps_notified env k db rows usd_rate i :
  notified_at db i = Some true ->
  notified_at (out_db (save_rows env k db rows usd_rate)) i = Some true.
Proof.
  revert k db. induction rows as [|raw rest IH]; intros k db Hn; simpl; [exact Hn|].
  destruct (Schema.__init__ usd_rate raw) as [row|e]; simpl; [|exact Hn].
  pose proof (process_row_keeps_notified (env k) db row i Hn) as Hn'.
  destruct (out_result (process_row (env k) db row)); simpl; [|exact Hn'].
  by apply IH.
Qed.

Lemma save_rows_lookup_ne env k db rows usd_rate i :
  Forall (fun raw => row_id usd_rate raw ≠ Some i) rows ->
  out_db (save_rows env k db rows usd_rate) !! i = db !! i.
Proof.
  revert k db. induction rows as [|raw rest IH]; intros k db Hall; simpl; [done|].
  inversion Hall as [|? ? Hraw Hrest]; subst.
  unfold row_id in Hraw.
  destruct (Schema.__init__ usd_rate raw) as [row|e]; simpl; [|done].
  assert (i ≠ Schema.id row) as Hne by congruence.
  pose proof (process_row_lookup_ne (env k) db row i Hne) as Hl.
  destruct (out_result (process_row (env k) db row)); simpl; [|exact Hl].
  rewrite IH; [exact Hl|exact Hrest].
Qed.

(** Rows are handled one after the other: the loop over [l1 ++ l2] is
    the loop over [l1] and then, unless it raised, the loop over [l2]
    from the table it left. *)
Lemma save_rows_app env k db (l1 l2 : list (list string)) usd_rate :
  save_rows env k db (l1 ++ l2) usd_rate =
  let o1 := save_rows env k db l1 usd_rate in
  match out_result o1 with
  | Raise _ => o1
  | Ok _ =>
      let o2 := save_rows env (k + length l1)%nat (out_db o1) l2 usd_rate in
      mkout (out_db o2) (out_trace o1 ++ out_trace o2) (out_result o2)
  end.
Proof.
  revert k db. induction l1 as [|raw rest IH]; intros k db; simpl.
  - rewrite Nat.add_0_r. by destruct (save_rows env k db l2 usd_rate).
  - destruct (Schema.__init__ usd_rate raw) as [row|e]; simpl; [|done].
    destruct (out_result (process_row (env k) db row)) eqn:Hr; simpl.
    + rewrite IH. simpl.
      destruct (out_result (save_rows env (S k) (out_db (process_row (env k) db row)) rest usd_rate))
        eqn:Hr2; simpl; [|by rewrite Hr2].
      replace (k + S (length rest))%nat with (S (k + length rest)) by lia.
      f_equal. apply app_assoc.
    + by rewrite Hr.
Qed.
End Loop.

(** C1: the flag never goes back. When a row of some primary key is
    stored, an upsert of that key replaces the order number, the two costs
    and the delivery date and keeps the stored flag; so does any sequence
    of upserts; and a whole run of [_save_to_db], whatever the rows and
    whatever the collaborators answer, leaves a flag that was true true. *)
Theorem notified_is_monotone
    (env : nat -> RowEnv) (db : table) (rows : list (list string))
    (usd_rate : float) (upserts : list Schema.t) (row : Schema.t) (stored : Test.t) :
  db !! Schema.id row = Some stored ->
  upsert db row !! Schema.id row
    = Some (Test.mk (Schema.id row) (Schema.order_id row) (Schema.cost_usd row)
                    (Schema.cost_rur row) (Schema.delivery_date row)
                    (Test.is_notified stored))
  /\ notified_at (fold_left upsert upserts db) (Schema.id row)
     = Some (Test.is_notified stored)
  /\ (Test.is_notified stored = true ->
      notified_at (out_db (_save_to_db env db rows usd_rate)) (Schema.id row)
      = Some true).
Proof.
  intros Hs. split; [|split].
  - rewrite upsert_lookup. unfold merge. by rewrite Hs.
  - apply fold_upsert_notified_at. unfold notified_at. by rewrite Hs.
  - intros Ht. apply save_rows_keeps_notified. unfold notified_at.
    rewrite Hs. simpl. by f_equal.
Qed.

(** ** The expiration notice *)

Section Notice.
Implicit Types (env : RowEnv) (db : table) (row : Schema.t) (d : date).

Lemma date_lt_irrefl d : date_lt d d = false.
Proof.
  unfold date_lt. rewrite !Z.ltb_irrefl, !Z.eqb_refl. reflexivity.
Qed.

Lemma expired_merge env db row :
  expired env (merge db row)
  = negb (Test.is_notified (merge db row))
    && date_lt (Schema.delivery_date row) (today env).
Proof. reflexivity. Qed.

(** The body when the storage answers and the row is due. *)
Lemma process_row_due env db row :
  upsert_ok env = true -> refresh_ok env = true ->
  expired env (merge db row) = true ->
  process_row env db row =
  let obj := merge db row in
  let call := Notify (Schema.id row) (Schema.delivery_date row) in
  if negb (notify_ok env) then
    mkout (upsert db row) [Commit obj; call] (Raise NotifierError)
  else if negb (flag_ok env) then
    mkout (upsert db row) [Commit obj; call] (Raise StorageError)
  else
    mkout (commit (upsert db row) (set_notified obj))
          [Commit obj; call; Commit (set_notified obj)] (Ok ()).
Proof.
  intros Hu Hr He. unfold process_row, _notify_about_delivery_date_expiration.
  rewrite Hu, Hr, He. simpl. by destruct (notify_ok env).
Qed.

(** The body when the storage answers and the row is not due. *)
Lemma process_row_not_due env db row :
  upsert_ok env = true -> refresh_ok env = true ->
  expired env (merge db row) = false ->
  process_row env db row = mkout (upsert db row) [Commit (merge db row)] (Ok ()).
Proof.
  intros Hu Hr He. unfold process_row. rewrite Hu, Hr, He. reflexivity.
Qed.

Lemma upsert_flag db row :
  notified_at (upsert db row) (Schema.id row)
  = Some (Test.is_notified (merge db row)).
Proof. unfold notified_at. by rewrite upsert_lookup. Qed.
End Notice.

(** ** Failures inside the loop *)

Section Failures.
Implicit Types (env : nat -> RowEnv) (db : table) (rows : list (list string)).

Lemma process_row_quiet (e : RowEnv) db (row : Schema.t) :
  quiet e = true -> out_result (process_row e db row) = Ok ().
Proof.
  unfold quiet. intros Hq.
  apply andb_true_iff in Hq as [Hq Hf]. apply andb_true_iff in Hq as [Hq Hn].
  apply andb_true_iff in Hq as [Hu Hr].
  unfold process_row, _notify_about_delivery_date_expiration.
  rewrite Hu, Hr, Hn, Hf. simpl.
  by destruct (expired e (merge db row)).
Qed.

Lemma save_rows_quiet env k db rows usd_rate :
  (forall j, quiet (env j) = true) ->
  Forall (fun raw => valid_row usd_rate raw = true) rows ->
  out_result (save_rows env k db rows usd_rate) = Ok ().
Proof.
  intros Hq. revert k db.
  induction rows as [|raw rest IH]; intros k db Hall; simpl; [done|].
  inversion Hall as [|? ? Hraw Hrest]; subst. unfold valid_row in Hraw.
  destruct (Schema.__init__ usd_rate raw) as [row|e]; [|discriminate].
  rewrite (process_row_quiet (env k) db row (Hq k)). simpl. by apply IH.
Qed.

(** The body never removes a row of the table. *)
Lemma process_row_keeps_rows (e : RowEnv) db (row : Schema.t) i :
  is_Some (db !! i) -> is_Some (out_db (process_row e db row) !! i).
Proof.
  intros Hi. destruct (decide (i = Schema.id row)) as [->|Hne].
  - destruct (process_row_db e db row) as [-> | [-> | [_ ->]]]; [done| |].
    + rewrite upsert_lookup. by eexists.
    + rewrite flag_commit_lookup. by eexists.
  - by rewrite process_row_lookup_ne.
Qed.

(** A body that ends without an exception has stored its row. *)
Lemma process_row_stores (e : RowEnv) db (row : Schema.t) :
  out_result (process_row e db row) = Ok () ->
  is_Some (out_db (process_row e db row) !! Schema.id row).
Proof.
  unfold process_row, _notify_about_delivery_date_expiration.
  destruct (upsert_ok e); simpl; [|discriminate].
  destruct (refresh_ok e); simpl; [|discriminate].
  destruct (expired e (merge db row)); simpl.
  - destruct (notify_ok e); simpl; [|discriminate].
    destruct (flag_ok e); simpl; [|discriminate].
    intros _. change (commit db (merge db row)) with (upsert db row).
    rewrite flag_commit_lookup. by eexists.
  - intros _. change (commit db (merge db row)) with (upsert db row).
    rewrite upsert_lookup. by eexists.
Qed.

Lemma save_rows_keeps_rows env k db rows usd_rate i :
  is_Some (db !! i) -> is_Some (out_db (save_rows env k db rows usd_rate) !! i).
Proof.
  revert k db. induction rows as [|raw rest IH]; intros k db Hi; simpl; [exact Hi|].
  destruct (Schema.__init__ usd_rate raw) as [row|e]; simpl; [|exact Hi].
  pose proof (process_row_keeps_rows (env k) db row i Hi) as Hi'.
  destruct (out_result (process_row (env k) db row)); simpl; [|exact Hi'].
  by apply IH.
Qed.

Lemma save_rows_stores env k db rows usd_rate raw i :
  out_result (save_rows env k db rows usd_rate) = Ok () ->
  raw ∈ rows -> row_id usd_rate raw = Some i ->
  is_Some (out_db (save_rows env k db rows usd_rate) !! i).
Proof.
  revert k db. induction rows as [|raw' rest IH]; intros k db Hok Hin Hid.
  - by apply elem_of_nil in Hin.
  - simpl in *.
    destruct (Schema.__init__ usd_rate raw') as [row|e] eqn:Hinit;
      simpl in *; [|discriminate].
    destruct (out_result (process_row (env k) db row)) as [[]|e] eqn:Hr;
      simpl in *; [|by rewrite Hr in Hok].
    apply elem_of_cons in Hin as [->|Hin].
    + apply save_rows_keeps_rows.
      unfold row_id in Hid. rewrite Hinit in Hid. injection Hid as <-.
      by apply process_row_stores.
    + by apply IH.
Qed.

(** The loop over the rows kept by [rows[1:]] when the first of them
    that ends with an exception is known. *)
Lemma save_rows_stops env db (pre post : list (list string)) raw usd_rate e :
  out_result (save_rows env 0 db pre usd_rate) = Ok () ->
  out_result (save_rows env (length pre)
                (out_db (save_rows env 0 db pre usd_rate)) [raw] usd_rate)
  = Raise e ->
  save_rows env 0 db (pre ++ raw :: post) usd_rate
  = mkout (out_db (save_rows env (length pre)
                     (out_db (save_rows env 0 db pre usd_rate)) [raw] usd_rate))
          (out_trace (save_rows env 0 db pre usd_rate)
           ++ out_trace (save_rows env (length pre)
                           (out_db (save_rows env 0 db pre usd_rate)) [raw] usd_rate))
          (Raise e).
Proof.
  intros Hpre Hk. rewrite save_rows_app. simpl. rewrite Hpre. simpl in *.
  destruct (Schema.__init__ usd_rate raw) as [row|e']; simpl in *.
  - destruct (out_result (process_row (env (length pre))
                (out_db (save_rows env 0 db pre usd_rate)) row)) eqn:Hr;
      simpl in *; [discriminate|].
    by rewrite Hk.
  - rewrite app_nil_r. by injection Hk as ->.
Qed.
End Failures.

(** ** At most one notice for an order in a run *)

Section Once.
Implicit Types (env : RowEnv) (db : table) (row : Schema.t) (i : Z).

Lemma calls_for_app i (tr1 tr2 : list event) :
  calls_for i (tr1 ++ tr2) = calls_for i tr1 ++ calls_for i tr2.
Proof. unfold calls_for. apply omap_app. Qed.

(** The body calls the notice service for its own row only, and a call
    that returned is followed by the flag. *)
Lemma process_row_calls env db row i :
  let o := process_row env db row in
  calls_for i (out_trace o) = []
  \/ (i = Schema.id row
      /\ notified_at db i ≠ Some true
      /\ calls_for i (out_trace o) = [Schema.delivery_date row]
      /\ (out_result o = Ok () -> notified_at (out_db o) i = Some true)).
Proof.
  unfold process_row, _notify_about_delivery_date_expiration.
  destruct (upsert_ok env); simpl; [|by left].
  destruct (refresh_ok env); simpl; [|by left].
  destruct (expired env (merge db row)) eqn:He; [|by left].
  destruct (decide (Schema.id row = i)) as [<-|Hne].
  - right. split; [done|].
    assert (Hflag : notified_at db (Schema.id row) ≠ Some true).
    { rewrite expired_merge in He. apply andb_true_iff in He as [He _].
      apply negb_true_iff in He. unfold notified_at. unfold merge in He. simpl in He.
      destruct (db !! Schema.id row) as [stored|]; simpl; [|done].
      intros [= Hs]. by rewrite Hs in He. }
    split; [exact Hflag|].
    destruct (notify_ok env); simpl.
    + destruct (flag_ok env); simpl.
      * unfold calls_for. simpl. rewrite decide_True by done. split; [done|].
        intros _. unfold notified_at.
        change (commit db (merge db row)) with (upsert db row).
        by rewrite flag_commit_lookup.
      * unfold calls_for. simpl. rewrite decide_True by done. split; [done|].
        discriminate.
    + unfold calls_for. simpl. rewrite decide_True by done. split; [done|].
      discriminate.
  - left. destruct (notify_ok env); simpl; [destruct (flag_ok env); simpl|];
      unfold calls_for; simpl; by rewrite decide_False.
Qed.

Lemma save_rows_calls (envs : nat -> RowEnv) rows usd_rate i :
  forall k db,
    (length (calls_for i (out_trace (save_rows envs k db rows usd_rate))) <= 1)%nat
    /\ (notified_at db i = Some true ->
        calls_for i (out_trace (save_rows envs k db rows usd_rate)) = []).
Proof.
  induction rows as [|raw rest IH]; intros k db; simpl; [split; [lia|done]|].
  destruct (Schema.__init__ usd_rate raw) as [row|e]; simpl; [|split; [lia|done]].
  pose proof (process_row_calls (envs k) db row i) as Hrow. simpl in Hrow.
  pose proof (process_row_keeps_notified (envs k) db row i) as Hkeep.
  destruct (out_result (process_row (envs k) db row)) as [[]|e] eqn:Hres; simpl.
  - destruct (IH (S k) (out_db (process_row (envs k) db row))) as [Hle Hnone].
    rewrite calls_for_app, length_app.
    destruct Hrow as [->|(_ & Hflag & -> & Hset)]; simpl.
    + split; [exact Hle|]. intros Hn. by apply Hnone, Hkeep.
    + rewrite (Hnone (Hset eq_refl)). simpl. split; [lia|]. by intros Hn.
  - destruct Hrow as [->|(_ & Hflag & -> & _)]; simpl; (split; [lia|]); [done|].
    by intros Hn.
Qed.

Lemma save_rows_no_calls (envs : nat -> RowEnv) rows usd_rate i :
  Forall (fun raw => row_id usd_rate raw ≠ Some i) rows ->
  forall k db, calls_for i (out_trace (save_rows envs k db rows usd_rate)) = [].
Proof.
  induction 1 as [|raw rest Hraw Hrest IH]; intros k db; simpl; [done|].
  unfold row_id in Hraw.
  destruct (Schema.__init__ usd_rate raw) as [row|e]; simpl; [|done].
  assert (Hrow : calls_for i (out_trace (process_row (envs k) db row)) = []).
  { destruct (process_row_calls (envs k) db row i) as [H|(-> & _)]; [exact H|done]. }
  destruct (out_result (process_row (envs k) db row)); simpl; [|exact Hrow].
  by rewrite calls_for_app, Hrow, IH.
Qed.

(** In a run without failure, the first row of an order that is due and
    not yet notified makes the one notice of the run for that order. *)
Lemma first_due_row_notified_once
    (envs : nat -> RowEnv) db (pre post : list (list string)) raw usd_rate row :
  (forall k, quiet (envs k) = true) ->
  Forall (fun r => valid_row usd_rate r = true) (pre ++ raw :: post) ->
  Forall (fun r => row_id usd_rate r ≠ Some (Schema.id row)) pre ->
  Schema.__init__ usd_rate raw = Ok row ->
  notified_at db (Schema.id row) ≠ Some true ->
  date_lt (Schema.delivery_date row) (today (envs (length pre))) = true ->
  calls_for (Schema.id row)
            (out_trace (save_rows envs 0 db (pre ++ raw :: post) usd_rate))
  = [Schema.delivery_date row].
Proof.
  intros Hq Hvalid Hpre Hinit Hflag Hdue.
  apply Forall_app in Hvalid as [Hvpre Hvpost].
  rewrite save_rows_app. simpl.
  rewrite (save_rows_quiet envs 0 db pre usd_rate Hq Hvpre). simpl.
  rewrite calls_for_app, (save_rows_no_calls envs pre usd_rate _ Hpre). simpl.
  rewrite Hinit. simpl.
  set (db1 := out_db (save_rows envs 0 db pre usd_rate)).
  assert (Hflag1 : Test.is_notified (merge db1 row) = false).
  { unfold merge. simpl. subst db1.
    rewrite (save_rows_lookup_ne envs 0 db pre usd_rate _ Hpre).
    unfold notified_at in Hflag.
    destruct (db !! Schema.id row) as [stored|]; simpl in *; [|done].
    destruct (Test.is_notified stored); [by destruct Hflag|done]. }
  assert (He : expired (envs (length pre)) (merge db1 row) = true).
  { rewrite expired_merge, Hflag1, Hdue. reflexivity. }
  pose proof (Hq (length pre)) as Hquiet. unfold quiet in Hquiet.
  apply andb_true_iff in Hquiet as [Hquiet Hf].
  apply andb_true_iff in Hquiet as [Hquiet Hn].
  apply andb_true_iff in Hquiet as [Hu Hr].
  rewrite (process_row_due _ db1 row Hu Hr He), Hn, Hf. simpl.
  destruct (save_rows_calls envs post usd_rate (Schema.id row) (S (length pre))
              (commit (upsert db1 row) (set_notified (merge db1 row))))
    as [_ Hnone].
  rewrite decide_True by done. rewrite Hnone; [done|].
  unfold notified_at. by rewrite flag_commit_lookup.
Qed.
End Once.

(** C2: after the upsert of a row has been committed and the row read
    back, a stored flag that is false together with a delivery date
    strictly before today makes exactly one call of the notice service,
    with the id and the delivery date of the row; the flag is stored by a
    second commit that comes after the call and only when the call
    returned. Otherwise there is no call and no second commit; a delivery
    date equal to today is such a case. In a whole run an order is notified
    at most once, and exactly once, at its first row, when the run meets no
    failure and that row is due with a flag not yet stored. *)
Theorem expiration_notice_rule
    (env : RowEnv) (db : table) (row : Schema.t) (envs : nat -> RowEnv)
    (rows pre post : list (list string)) (raw : list string) (usd_rate : float) :
  upsert_ok env = true -> refresh_ok env = true ->
  let obj := merge db row in
  let o := process_row env db row in
  let call := Notify (Schema.id row) (Schema.delivery_date row) in
  (Test.is_notified obj = false
   /\ date_lt (Schema.delivery_date row) (today env) = true ->
     notify_calls (out_trace o) = [(Schema.id row, Schema.delivery_date row)]
     /\ (notify_ok env = true -> flag_ok env = true ->
         out_trace o = [Commit obj; call; Commit (set_notified obj)]
         /\ out_db o = commit (upsert db row) (set_notified obj)
         /\ notified_at (out_db o) (Schema.id row) = Some true)
     /\ (notify_ok env = false ->
         out_trace o = [Commit obj; call]
         /\ out_db o = upsert db row
         /\ notified_at (out_db o) (Schema.id row) = Some false))
  /\ (Test.is_notified obj = true
      \/ date_lt (Schema.delivery_date row) (today env) = false ->
      out_trace o = [Commit obj] /\ out_db o = upsert db row)
  /\ (Schema.delivery_date row = today env ->
      notify_calls (out_trace o) = [] /\ out_db o = upsert db row)
  /\ (length (calls_for (Schema.id row)
                (out_trace (_save_to_db envs db rows usd_rate))) <= 1)%nat
  /\ ((forall k, quiet (envs k) = true) ->
      Forall (fun r => valid_row usd_rate r = true) (pre ++ raw :: post) ->
      Forall (fun r => row_id usd_rate r ≠ Some (Schema.id row)) pre ->
      Schema.__init__ usd_rate raw = Ok row ->
      notified_at db (Schema.id row) ≠ Some true ->
      date_lt (Schema.delivery_date row) (today (envs (length pre))) = true ->
      calls_for (Schema.id row)
                (out_trace (save_rows envs 0 db (pre ++ raw :: post) usd_rate))
      = [Schema.delivery_date row]).
Proof.
  intros Hu Hr obj o call.
  assert (Hnot : expired env (merge db row) = false ->
                 out_trace o = [Commit obj] /\ out_db o = upsert db row).
  { intros He. subst o. by rewrite (process_row_not_due env db row Hu Hr He). }
  split; [|split; [|split; [|split]]].
  - intros [Hn Hd].
    assert (He : expired env (merge db row) = true).
    { rewrite expired_merge. fold obj. by rewrite Hn, Hd. }
    subst o. rewrite (process_row_due env db row Hu Hr He). simpl.
    split; [|split].
    + by destruct (notify_ok env), (flag_ok env).
    + intros -> ->. simpl. split; [done|split; [done|]].
      unfold notified_at. by rewrite flag_commit_lookup.
    + intros ->. simpl. split; [done|split; [done|]].
      rewrite upsert_flag. fold obj. by rewrite Hn.
  - intros Hc. apply Hnot. rewrite expired_merge. fold obj.
    destruct Hc as [-> | ->]; [done|]. apply andb_false_r.
  - intros Heq.
    destruct Hnot as [Ht Hd].
    + rewrite expired_merge, Heq, date_lt_irrefl. apply andb_false_r.
    + split; [by rewrite Ht|exact Hd].
  - apply save_rows_calls.
  - apply first_due_row_notified_once.
Qed.

(** C4: when the row is due and the notice service raises, the body ends
    with that exception, the stored flag of the row is false, no commit
    stores a flag, and handling the same row again, on a day that is
    still after the delivery date, calls the notice service again. *)
Theorem notifier_failure_keeps_flag (env env' : RowEnv) (db : table) (row : Schema.t) :
  upsert_ok env = true -> refresh_ok env = true ->
  expired env (merge db row) = true ->
  notify_ok env = false ->
  let o := process_row env db row in
  out_result o = Raise NotifierError
  /\ notified_at (out_db o) (Schema.id row) = Some false
  /\ flag_commits (out_trace o) = []
  /\ (upsert_ok env' = true -> refresh_ok env' = true ->
      date_lt (Schema.delivery_date row) (today env') = true ->
      notify_calls (out_trace (process_row env' (out_db o) row))
      = [(Schema.id row, Schema.delivery_date row)]).
Proof.
  intros Hu Hr He Hn o. subst o.
  rewrite (process_row_due env db row Hu Hr He), Hn. simpl.
  assert (Hflag : Test.is_notified (merge db row) = false).
  { rewrite expired_merge in He. apply andb_true_iff in He as [He _].
    by apply negb_true_iff in He. }
  split; [done|]. split; [by rewrite upsert_flag, Hflag|].
  split.
  - unfold flag_commits. simpl.
    unfold merge in Hflag. simpl in Hflag. by rewrite Hflag.
  - intros Hu' Hr' Hd'.
    assert (He' : expired env' (merge (upsert db row) row) = true).
    { rewrite expired_merge, merge_upsert, Hflag, Hd'. reflexivity. }
    rewrite (process_row_due env' _ row Hu' Hr' He'). simpl.
    by destruct (notify_ok env'), (flag_ok env').
Qed.

(** C8: upserting the same normalised row a second time leaves the table
    as the first upsert left it, and the row merged the second time has
    the flag of the row merged the first time. *)
Theorem upsert_idempotent (db : table) (row : Schema.t) :
  upsert (upsert db row) row = upsert db row
  /\ notified_at (upsert (upsert db row) row) (Schema.id row)
     = notified_at (upsert db row) (Schema.id row)
  /\ Test.is_notified (merge (upsert db row) row)
     = Test.is_notified (merge db row).
Proof.
  assert (Heq : upsert (upsert db row) row = upsert db row).
  { unfold upsert at 1. rewrite merge_upsert. unfold upsert, commit.
    apply insert_insert_eq. }
  split; [exact Heq|]. split; [by rewrite Heq|by rewrite merge_upsert].
Qed.



(** C3, as the code has it: with collaborators that do not fail, a row
    that does not normalise ends the run with its exception; the table
    and the trace are those left by the rows before it, which are all
    stored; a primary key that no row before it carries holds what it held
    before the run, whatever the rows after it are. *)
Theorem malformed_row_aborts_cycle
    (env : nat -> RowEnv) (db : table) (hdr : list string)
    (pre post : list (list string)) (bad : list string) (usd_rate : float) :
  (forall k, quiet (env k) = true) ->
  Forall (fun raw => valid_row usd_rate raw = true) pre ->
  valid_row usd_rate bad = false ->
  let before := save_rows env 0 db pre usd_rate in
  let o := _save_to_db env db (hdr :: pre ++ bad :: post) usd_rate in
  (exists e, Schema.__init__ usd_rate bad = Raise e /\ out_result o = Raise e)
  /\ out_result before = Ok ()
  /\ out_db o = out_db before
  /\ out_trace o = out_trace before
  /\ (forall raw i, raw ∈ pre -> row_id usd_rate raw = Some i ->
      is_Some (out_db o !! i))
  /\ (forall i, Forall (fun raw => row_id usd_rate raw ≠ Some i) pre ->
      out_db o !! i = db !! i).
Proof.
  intros Hq Hpre Hbad before o.
  assert (Hok : out_result before = Ok ()) by by apply save_rows_quiet.
  unfold valid_row in Hbad.
  destruct (Schema.__init__ usd_rate bad) as [row|e] eqn:Hinit; [discriminate|].
  assert (Hk : out_result (save_rows env (length pre) (out_db before) [bad] usd_rate)
               = Raise e) by (simpl; by rewrite Hinit).
  assert (Ho : o = mkout (out_db before) (out_trace before) (Raise e)).
  { subst o. unfold _save_to_db. simpl.
    rewrite (save_rows_stops env db pre post bad usd_rate e Hok Hk).
    simpl. rewrite Hinit. simpl. by rewrite app_nil_r. }
  rewrite Ho. simpl. split; [by exists e|]. split; [exact Hok|].
  split; [done|]. split; [done|]. split.
  - intros raw i Hin Hid. by apply (save_rows_stores env 0 db pre usd_rate raw i).
  - intros i Hi. by apply save_rows_lookup_ne.
Qed.

(** ** The normaliser *)

Section Normaliser.
Implicit Types (usd_rate : float) (args : list string).

Lemma int_of_chars_raises s e : int_of_chars s = Raise e -> e = ValueError.
Proof. unfold int_of_chars. intros H. repeat case_match; congruence. Qed.

Lemma py_int_raises text e : py_int text = Raise e -> e = ValueError.
Proof. apply int_of_chars_raises. Qed.

Lemma py_float_raises text e : py_float text = Raise e -> e = ValueError.
Proof. unfold py_float. intros H. repeat case_match; congruence. Qed.

Lemma make_date_raises y m d e : make_date y m d = Raise e -> e = ValueError.
Proof. unfold make_date. intros H. case_match; congruence. Qed.

Lemma strptime_raises text e : strptime text = Raise e -> e = ValueError.
Proof.
  unfold strptime. intros H.
  repeat case_match; try congruence.
  destruct (int_of_chars (group _ "Y")) eqn:Hy; simpl in H;
    [|apply int_of_chars_raises in Hy; congruence].
  destruct (int_of_chars (group _ "m")) eqn:Hm; simpl in H;
    [|apply int_of_chars_raises in Hm; congruence].
  destruct (int_of_chars (group _ "d")) eqn:Hd; simpl in H;
    [|apply int_of_chars_raises in Hd; congruence].
  by apply make_date_raises in H.
Qed.

(** [__init__] on a row of four fields or more, without the indexing. *)
Lemma init_four usd_rate (a0 a1 a2 a3 : string) (extra : list string) :
  Schema.__init__ usd_rate (a0 :: a1 :: a2 :: a3 :: extra) =
  (i ← py_int a0;
   o ← py_int a1;
   c ← py_float a2;
   d ← strptime a3;
   Ok (Schema.mk i o c d (py_round (float_mul c usd_rate) 2))).
Proof.
  unfold Schema.__init__. simpl.
  destruct (py_int a0); simpl; [|done].
  destruct (py_int a1); simpl; [|done].
  by destruct (py_float a2).
Qed.

(** What a normalised row was made of. *)
Lemma init_ok usd_rate args row :
  Schema.__init__ usd_rate args = Ok row ->
  exists a0 a1 a2 a3 extra,
    args = a0 :: a1 :: a2 :: a3 :: extra
    /\ py_int a0 = Ok (Schema.id row)
    /\ py_int a1 = Ok (Schema.order_id row)
    /\ py_float a2 = Ok (Schema.cost_usd row)
    /\ strptime a3 = Ok (Schema.delivery_date row)
    /\ Schema.cost_rur row = py_round (float_mul (Schema.cost_usd row) usd_rate) 2.
Proof.
  intros H.
  destruct args as [|a0 [|a1 [|a2 [|a3 extra]]]].
  - discriminate.
  - unfold Schema.__init__ in H. simpl in H. by destruct (py_int a0).
  - unfold Schema.__init__ in H. simpl in H.
    destruct (py_int a0); simpl in H; [|done]. by destruct (py_int a1).
  - unfold Schema.__init__ in H. simpl in H.
    destruct (py_int a0); simpl in H; [|done].
    destruct (py_int a1); simpl in H; [|done]. by destruct (py_float a2).
  - rewrite init_four in H. exists a0, a1, a2, a3, extra.
    destruct (py_int a0) as [i|]; simpl in H; [|done].
    destruct (py_int a1) as [o|]; simpl in H; [|done].
    destruct (py_float a2) as [c|]; simpl in H; [|done].
    destruct (strptime a3) as [d|]; simpl in H; [|done].
    injection H as <-. done.
Qed.

Lemma upsert_cost_rur (db : table) (row : Schema.t) :
  cost_rur_at (upsert db row) (Schema.id row) = Some (Schema.cost_rur row).
Proof. unfold cost_rur_at. by rewrite upsert_lookup. Qed.
End Normaliser.



(** C10, as the code has it: the fields after the fourth play no part;
    a row of fewer than four fields never normalises, and the exception is
    [IndexError] when the fields that are there parse and [ValueError]
    when one of them does not, each field being parsed before the next
    one is read. *)
Theorem only_first_four_fields
    (usd_rate : float) (a0 a1 a2 a3 : string) (extra args : list string) :
  Schema.__init__ usd_rate (a0 :: a1 :: a2 :: a3 :: extra)
  = Schema.__init__ usd_rate [a0; a1; a2; a3]
  /\ ((length args < 4)%nat ->
      (present_fields_parse args = true ->
       Schema.__init__ usd_rate args = Raise IndexError)
      /\ (present_fields_parse args = false ->
          Schema.__init__ usd_rate args = Raise ValueError)).
Proof.
  split; [by rewrite !init_four|].
  intros Hlen.
  destruct args as [|b0 [|b1 [|b2 [|b3 more]]]]; simpl in Hlen; try lia;
    unfold Schema.__init__, present_fields_parse; simpl.
  - split; [done|discriminate].
  - destruct (py_int b0) eqn:H0; simpl; (split; [done || discriminate|]);
      [discriminate|]. intros _. by rewrite (py_int_raises _ _ H0).
  - destruct (py_int b0) eqn:H0; simpl.
    + destruct (py_int b1) eqn:H1; simpl; (split; [done || discriminate|]);
        [discriminate|]. intros _. by rewrite (py_int_raises _ _ H1).
    + split; [discriminate|]. intros _. by rewrite (py_int_raises _ _ H0).
  - destruct (py_int b0) eqn:H0; simpl.
    + destruct (py_int b1) eqn:H1; simpl.
      * destruct (py_float b2) eqn:H2; simpl; (split; [done || discriminate|]);
          [discriminate|]. intros _. by rewrite (py_float_raises _ _ H2).
      * split; [discriminate|]. intros _. by rewrite (py_int_raises _ _ H1).
    + split; [discriminate|]. intros _. by rewrite (py_int_raises _ _ H0).
Qed.

(** ** The date format *)

Section Regex.
Context {X : Type}.
Implicit Types (r : regex) (s w : list ascii) (caps : captures)
               (k : list ascii -> captures -> option X).

Lemma capture_app w s : capture (w ++ s) s = w.
Proof.
  unfold capture. rewrite length_app, Nat.add_sub. apply take_app_length.
Qed.

(** A match that succeeds read a word of the expression. *)
Lemma rmatch_sound r :
  group_free r = true ->
  forall s caps k x,
    rmatch r s caps k = Some x ->
    exists w s', s = w ++ s' /\ lang r w /\ k s' caps = Some x.
Proof.
  induction r as [c|lo hi| |r1 IH1 r2 IH2|r1 IH1 r2 IH2|name r1 IH1];
    simpl; intros Hgf s caps k x Hm.
  - destruct s as [|c' t]; [discriminate|].
    destruct (Ascii.eqb_spec c' c) as [->|]; [|discriminate].
    by exists [c], t.
  - destruct s as [|c' t]; [discriminate|].
    destruct ((code lo <=? code c') && (code c' <=? code hi)) eqn:Hr;
      [|discriminate].
    apply andb_true_iff in Hr as [H1 H2].
    apply Z.leb_le in H1. apply Z.leb_le in H2.
    exists [c'], t. split; [done|]. split; [|done]. by exists c'.
  - destruct s as [|c' t]; [discriminate|].
    destruct (is_digit c') eqn:Hd; [|discriminate].
    exists [c'], t. split; [done|]. split; [|done]. by exists c'.
  - apply andb_true_iff in Hgf as [Hg1 Hg2].
    apply (IH1 Hg1) in Hm as (w1 & s1 & -> & Hl1 & Hm).
    apply (IH2 Hg2) in Hm as (w2 & s2 & -> & Hl2 & Hm).
    exists (w1 ++ w2), s2. split; [by rewrite app_assoc|].
    split; [|done]. by exists w1, w2.
  - apply andb_true_iff in Hgf as [Hg1 Hg2].
    destruct (rmatch r1 s caps k) as [y|] eqn:H1.
    + injection Hm as ->.
      apply (IH1 Hg1) in H1 as (w & s' & -> & Hl & Hk).
      exists w, s'. split; [done|]. split; [by left|done].
    + apply (IH2 Hg2) in Hm as (w & s' & -> & Hl & Hk).
      exists w, s'. split; [done|]. split; [by right|done].
  - discriminate.
Qed.

(** The same for a group, whose text is recorded. *)
Lemma rmatch_group_sound name r s caps k x :
  group_free r = true ->
  rmatch (Group name r) s caps k = Some x ->
  exists w s', s = w ++ s' /\ lang r w /\ k s' ((name, w) :: caps) = Some x.
Proof.
  simpl. intros Hgf Hm.
  apply (rmatch_sound r Hgf) in Hm as (w & s' & -> & Hl & Hk).
  exists w, s'. rewrite capture_app in Hk. done.
Qed.

(** A match fails only when every way of reading a word of the
    expression is refused by what follows. *)
Lemma rmatch_complete r :
  forall s caps k w s',
    rmatch r s caps k = None -> s = w ++ s' -> lang r w ->
    exists caps', k s' caps' = None.
Proof.
  induction r as [c|lo hi| |r1 IH1 r2 IH2|r1 IH1 r2 IH2|name r1 IH1];
    simpl; intros s caps k w s' Hm -> Hl.
  - subst w. simpl in Hm. rewrite Ascii.eqb_refl in Hm. by exists caps.
  - destruct Hl as (c & -> & Hlo & Hhi). simpl in Hm.
    apply Z.leb_le in Hlo. apply Z.leb_le in Hhi. rewrite Hlo, Hhi in Hm.
    by exists caps.
  - destruct Hl as (c & -> & Hd). simpl in Hm. rewrite Hd in Hm. by exists caps.
  - destruct Hl as (w1 & w2 & -> & Hl1 & Hl2).
    destruct (IH1 _ _ _ w1 (w2 ++ s') Hm) as [caps1 H1];
      [by rewrite app_assoc|exact Hl1|].
    by apply (IH2 _ _ _ w2 s' H1).
  - destruct (rmatch r1 (w ++ s') caps k) eqn:H1; [discriminate|].
    destruct Hl as [Hl|Hl].
    + by apply (IH1 _ _ _ w s' H1).
    + by apply (IH2 _ _ _ w s' Hm).
  - destruct (IH1 _ _ _ w s' Hm eq_refl Hl) as [caps1 H1]. by eexists.
Qed.
End Regex.

(** The codes of the characters of the date format. *)
Ltac codes :=
  change (code "0"%char) with 48 in *; change (code "1"%char) with 49 in *;
  change (code "2"%char) with 50 in *; change (code "3"%char) with 51 in *;
  change (code "9"%char) with 57 in *; change (code "."%char) with 46 in *;
  change (code " "%char) with 32 in *; change (code "-"%char) with 45 in *;
  change (code "+"%char) with 43 in *.

Section Chars.
Implicit Types (c : ascii) (s ds : list ascii).

Lemma code_inj c c' : code c = code c' -> c = c'.
Proof.
  unfold code. intros H. apply N2Z.inj in H.
  rewrite <- (ascii_N_embedding c), <- (ascii_N_embedding c'). by rewrite H.
Qed.

Lemma is_digit_bounds c : is_digit c = true <-> 48 <= code c <= 57.
Proof. unfold is_digit. by rewrite andb_true_iff, !Z.leb_le. Qed.

Lemma digit_not_space c : is_digit c = true -> py_isspace c = false.
Proof.
  intros H. apply is_digit_bounds in H. unfold py_isspace.
  rewrite !orb_false_iff, andb_false_iff, !Z.eqb_neq, !Z.leb_gt. lia.
Qed.

Lemma digit_not_underscore c : is_digit c = true -> is_underscore c = false.
Proof.
  intros H. apply is_digit_bounds in H. unfold is_underscore.
  rewrite Z.eqb_neq. lia.
Qed.

Lemma digit_no_sign c s : is_digit c = true -> take_sign (c :: s) = (false, c :: s).
Proof.
  intros H. apply is_digit_bounds in H. unfold take_sign.
  destruct (Ascii.eqb_spec c "-") as [->|_]; [codes; lia|].
  destruct (Ascii.eqb_spec c "+") as [->|_]; [codes; lia|]. reflexivity.
Qed.

Lemma scan_int_digits ds :
  Forall (fun c => is_digit c = true) ds ->
  forall prev_us acc n,
    scan_int prev_us acc n ds
    = Some (fold_left (fun a c => 10 * a + digit_value c) ds acc,
            n + Z.of_nat (length ds),
            match ds with [] => prev_us | _ :: _ => false end,
            []).
Proof.
  induction 1 as [|c t Hc Ht IH]; intros prev_us acc n; simpl.
  - by rewrite Z.add_0_r.
  - rewrite (digit_not_underscore c Hc), Hc, IH.
    replace (n + 1 + Z.of_nat (length t)) with (n + Z.of_nat (S (length t))) by lia.
    by destruct t.
Qed.

(** [int] on a text of digits is the number they write. *)
Lemma int_of_digits ds :
  ds ≠ [] -> Forall (fun c => is_digit c = true) ds ->
  Z.of_nat (length ds) <= int_max_str_digits ->
  int_of_chars ds = Ok (digits_value ds).
Proof.
  intros Hne Hds Hlen. destruct ds as [|c t]; [done|].
  inversion Hds as [|? ? Hc Ht]; subst.
  unfold int_of_chars.
  assert (Hl : lstrip (c :: t) = c :: t) by (simpl; by rewrite digit_not_space).
  rewrite Hl, (digit_no_sign c t Hc), (digit_not_underscore c Hc).
  rewrite (scan_int_digits (c :: t) Hds). simpl length.
  assert (H0 : (0 + Z.of_nat (S (length t)) =? 0) = false)
  by (apply Z.eqb_neq; lia).
  rewrite H0. simpl lstrip.
  assert (H1 : (int_max_str_digits <? 0 + Z.of_nat (S (length t))) = false).
  { simpl length in Hlen. apply Z.ltb_ge. lia. }
  by rewrite H1.
Qed.

Lemma int_of_padded ds : int_of_chars (" "%char :: ds) = int_of_chars ds.
Proof. reflexivity. Qed.
End Chars.

Section Fields.
Implicit Types (c : ascii) (w t : list ascii) (v : Z).

Lemma digit_value_bounds c : is_digit c = true -> 0 <= digit_value c <= 9.
Proof. intros H. apply is_digit_bounds in H. unfold digit_value. lia. Qed.

(** The words of [%d] are the day texts. *)
Lemma day_lang w : lang re_d w <-> exists v, day_text w v.
Proof.
  unfold re_d. simpl. split.
  - intros [(w1 & w2 & -> & -> & c & -> & Hc)
           |[(w1 & w2 & -> & (c1 & -> & Hc1) & c2 & -> & Hc2)
           |[(w1 & w2 & -> & -> & c & -> & Hc)
           |[(c & -> & Hc)
           |(w1 & w2 & -> & -> & c & -> & Hc)]]]]; codes; simpl.
    + eexists. apply (day_two "3" c); [done|apply is_digit_bounds; lia|].
      unfold digit_value. codes. lia.
    + apply is_digit_bounds in Hc2.
      eexists. apply (day_two c1 c2); [apply is_digit_bounds; lia|
                                       apply is_digit_bounds; lia|].
      unfold digit_value. lia.
    + eexists. apply (day_two "0" c); [done|apply is_digit_bounds; lia|].
      unfold digit_value. codes. lia.
    + eexists. apply (day_one c); [apply is_digit_bounds; lia|].
      unfold digit_value. lia.
    + eexists. apply (day_padded c); [apply is_digit_bounds; lia|].
      unfold digit_value. lia.
  - intros [v Hv]. destruct Hv as [c Hc Hv|c Hc Hv|c1 c2 Hc1 Hc2 Hv].
    + apply is_digit_bounds in Hc. unfold digit_value in Hv.
      right; right; right; left. exists c. codes. split; [done|lia].
    + apply is_digit_bounds in Hc. unfold digit_value in Hv.
      right; right; right; right. exists [" "%char], [c].
      split; [done|]. split; [done|]. exists c. codes. split; [done|lia].
    + apply is_digit_bounds in Hc1. apply is_digit_bounds in Hc2.
      unfold digit_value in Hv.
      destruct (Z.eq_dec (code c1) 51) as [H3|H3];
        [|destruct (Z.eq_dec (code c1) 48) as [H0|H0]].
      * left. exists [c1], [c2]. split; [done|]. split.
        -- f_equal. by apply code_inj.
        -- exists c2. codes. split; [done|lia].
      * right; right; left. exists [c1], [c2]. split; [done|]. split.
        -- f_equal. by apply code_inj.
        -- exists c2. codes. split; [done|lia].
      * right; left. exists [c1], [c2]. split; [done|]. split.
        -- exists c1. codes. split; [done|lia].
        -- exists c2. split; [done|]. apply is_digit_bounds. lia.
Qed.

(** The words of [%m] are the month texts. *)
Lemma month_lang w : lang re_m w <-> exists v, month_text w v.
Proof.
  unfold re_m. simpl. split.
  - intros [(w1 & w2 & -> & -> & c & -> & Hc)
           |[(w1 & w2 & -> & -> & c & -> & Hc)
           |(c & -> & Hc)]]; codes; simpl.
    + eexists. apply (month_two "1" c); [done|apply is_digit_bounds; lia|].
      unfold digit_value. codes. lia.
    + eexists. apply (month_two "0" c); [done|apply is_digit_bounds; lia|].
      unfold digit_value. codes. lia.
    + eexists. apply (month_one c); [apply is_digit_bounds; lia|].
      unfold digit_value. lia.
  - intros [v Hv]. destruct Hv as [c Hc Hv|c1 c2 Hc1 Hc2 Hv].
    + apply is_digit_bounds in Hc. unfold digit_value in Hv.
      right; right. exists c. codes. split; [done|lia].
    + apply is_digit_bounds in Hc1. apply is_digit_bounds in Hc2.
      unfold digit_value in Hv.
      destruct (Z.eq_dec (code c1) 49) as [H1|H1].
      * left. exists [c1], [c2]. split; [done|]. split.
        -- f_equal. by apply code_inj.
        -- exists c2. codes. split; [done|lia].
      * right; left. exists [c1], [c2]. split; [done|]. split.
        -- f_equal. apply code_inj. codes. lia.
        -- exists c2. codes. split; [done|lia].
Qed.

(** The words of [%Y] are the year texts. *)
Lemma year_lang w : lang re_Y w <-> exists v, year_text w v.
Proof.
  unfold re_Y. simpl. split.
  - intros (w1 & w2 & -> & (c1 & -> & Hc1) & w3 & w4 & -> & (c2 & -> & Hc2)
            & w5 & w6 & -> & (c3 & -> & Hc3) & c4 & -> & Hc4).
    eexists. by apply (year_four c1 c2 c3 c4).
  - intros [v Hv]. destruct Hv as [c1 c2 c3 c4 Hc1 Hc2 Hc3 Hc4].
    exists [c1], [c2; c3; c4]. split; [done|]. split; [by exists c1|].
    exists [c2], [c3; c4]. split; [done|]. split; [by exists c2|].
    exists [c3], [c4]. split; [done|]. split; [by exists c3|by exists c4].
Qed.

(** The number read from each field is the one [int] gives. *)
Lemma day_value w v : day_text w v -> int_of_chars w = Ok v.
Proof.
  intros [c Hc Hv|c Hc Hv|c1 c2 Hc1 Hc2 Hv].
  - rewrite int_of_digits; [|done|by repeat constructor|by vm_compute].
    unfold digits_value. simpl. f_equal; lia.
  - rewrite int_of_padded.
    rewrite int_of_digits; [|done|by repeat constructor|by vm_compute].
    unfold digits_value. simpl. f_equal; lia.
  - rewrite int_of_digits; [|done|by repeat constructor|by vm_compute].
    unfold digits_value. simpl. f_equal; lia.
Qed.

Lemma month_value w v : month_text w v -> int_of_chars w = Ok v.
Proof.
  intros [c Hc Hv|c1 c2 Hc1 Hc2 Hv].
  - rewrite int_of_digits; [|done|by repeat constructor|by vm_compute].
    unfold digits_value. simpl. f_equal; lia.
  - rewrite int_of_digits; [|done|by repeat constructor|by vm_compute].
    unfold digits_value. simpl. f_equal; lia.
Qed.

Lemma year_value w v : year_text w v -> int_of_chars w = Ok v.
Proof.
  intros [c1 c2 c3 c4 Hc1 Hc2 Hc3 Hc4].
  rewrite int_of_digits; [|done|by repeat constructor|by vm_compute].
  unfold digits_value. simpl. f_equal; lia.
Qed.

(** A digit is neither the point nor the blank. *)
Ltac not_a_digit :=
  match goal with
  | H : is_digit "."%char = true |- _ => by vm_compute in H
  | H : is_digit " "%char = true |- _ => by vm_compute in H
  end.

(** The first point of the text ends the day, the second the month. *)
Lemma day_split w w' v v' t t' :
  day_text w v -> day_text w' v' ->
  w ++ "."%char :: t = w' ++ "."%char :: t' -> w = w' /\ t = t'.
Proof.
  intros H H' E. destruct H; destruct H'; simpl in E; simplify_eq;
    try not_a_digit; done.
Qed.

Lemma month_split w w' v v' t t' :
  month_text w v -> month_text w' v' ->
  w ++ "."%char :: t = w' ++ "."%char :: t' -> w = w' /\ t = t'.
Proof.
  intros H H' E. destruct H; destruct H'; simpl in E; simplify_eq;
    try not_a_digit; done.
Qed.

Lemma year_split w w' v v' t :
  year_text w v -> year_text w' v' -> w = w' ++ t -> w = w' /\ t = [].
Proof. intros H H' E. destruct H; destruct H'; simpl in E; by simplify_eq. Qed.
End Fields.

Section Strptime.
Implicit Types (cs rest : list ascii) (found : captures) (d : date).

Lemma rmatch_cat {X} r1 r2 cs found (k : list ascii -> captures -> option X) :
  rmatch (Cat r1 r2) cs found k
  = rmatch r1 cs found (fun s' caps' => rmatch r2 s' caps' k).
Proof. reflexivity. Qed.

(** What the pattern of the format read when it matched. *)
Lemma format_sound cs rest found :
  rmatch format_regex cs [] (fun r c => Some (r, c)) = Some (rest, found) ->
  exists sd sm sy,
    cs = sd ++ "."%char :: sm ++ "."%char :: sy ++ rest
    /\ lang re_d sd /\ lang re_m sm /\ lang re_Y sy
    /\ found = [("Y"%string, sy); ("m"%string, sm); ("d"%string, sd)].
Proof.
  unfold format_regex. intros H.
  rewrite rmatch_cat in H.
  apply rmatch_group_sound in H as (sd & s1 & -> & Hd & H); [|reflexivity].
  rewrite rmatch_cat in H.
  apply (rmatch_sound (Lit ".")) in H as (w1 & s2 & -> & -> & H); [|reflexivity].
  rewrite rmatch_cat in H.
  apply rmatch_group_sound in H as (sm & s3 & -> & Hm & H); [|reflexivity].
  rewrite rmatch_cat in H.
  apply (rmatch_sound (Lit ".")) in H as (w2 & s4 & -> & -> & H); [|reflexivity].
  apply rmatch_group_sound in H as (sy & s5 & -> & Hy & H); [|reflexivity].
  injection H as <- <-. by exists sd, sm, sy.
Qed.

(** The pattern matches every text made of the three fields. *)
Lemma format_complete sd sm sy :
  lang re_d sd -> lang re_m sm -> lang re_Y sy ->
  rmatch format_regex (sd ++ "."%char :: sm ++ "."%char :: sy) []
         (fun r c => Some (r, c)) <> None.
Proof.
  intros Hd Hm Hy Hnone.
  apply (rmatch_complete format_regex _ _ _
           (sd ++ "."%char :: sm ++ "."%char :: sy) []) in Hnone
    as [caps' Hk]; [discriminate|by rewrite app_nil_r|].
  unfold format_regex. simpl.
  exists sd, ("."%char :: sm ++ "."%char :: sy). split; [done|]. split; [exact Hd|].
  exists ["."%char], (sm ++ "."%char :: sy). split; [done|]. split; [done|].
  exists sm, ("."%char :: sy). split; [done|]. split; [exact Hm|].
  exists ["."%char], sy. done.
Qed.

(** [strptime] accepts a text exactly when it is day, point, month,
    point, year and names a date of the calendar, and gives that date. *)
Lemma strptime_iff text d : strptime text = Ok d <-> dmy_text text d.
Proof.
  unfold strptime, dmy_text. split.
  - destruct (rmatch format_regex _ _ _) as [[rest found]|] eqn:Hm; [|discriminate].
    destruct rest; [|discriminate].
    apply format_sound in Hm as (sd & sm & sy & Hcs & Hd & Hmo & Hy & ->).
    rewrite app_nil_r in Hcs.
    apply day_lang in Hd as [vd Hd]. apply month_lang in Hmo as [vm Hmo].
    apply year_lang in Hy as [vy Hy].
    unfold group. simpl.
    rewrite (year_value _ _ Hy), (month_value _ _ Hmo), (day_value _ _ Hd). simpl.
    unfold make_date. destruct (valid_date vy vm vd) eqn:Hv; [|discriminate].
    intros H. injection H as <-. simpl. by exists sd, sm, sy.
  - intros (sd & sm & sy & Hcs & Hd & Hmo & Hy & Hv). rewrite Hcs.
    destruct (rmatch format_regex _ _ _) as [[rest found]|] eqn:Hm.
    + apply format_sound in Hm as (sd' & sm' & sy' & Hcs' & Hd' & Hmo' & Hy' & ->).
      apply day_lang in Hd' as [vd' Hd']. apply month_lang in Hmo' as [vm' Hmo'].
      apply year_lang in Hy' as [vy' Hy'].
      destruct (day_split _ _ _ _ _ _ Hd Hd' Hcs') as [<- Ht1].
      destruct (month_split _ _ _ _ _ _ Hmo Hmo' Ht1) as [<- Ht2].
      destruct (year_split _ _ _ _ _ Hy Hy' Ht2) as [<- ->].
      unfold group. simpl.
      rewrite (year_value _ _ Hy), (month_value _ _ Hmo), (day_value _ _ Hd). simpl.
      unfold make_date. rewrite Hv. by destruct d.
    + exfalso. revert Hm. apply format_complete.
      * apply day_lang. by eexists.
      * apply month_lang. by eexists.
      * apply year_lang. by eexists.
Qed.
End Strptime.


(** * The properties on the examples *)

(** The order 7, already notified, comes again at the rate 95.00: the
    cost in roubles becomes 4750.00 and the flag stays. *)
Lemma notified_is_monotone_witness :
  db7 true !! Schema.id rec7_at_95 = Some (obj7 true)
  /\ upsert (db7 true) rec7_at_95 !! 7
     = Some (Test.mk 7 1001 f50 f4750 day_2020_01_01 true)
  /\ notified_at (fold_left upsert [rec7; rec7_at_95] (db7 true)) 7 = Some true
  /\ notified_at (out_db (_save_to_db all_quiet (db7 true) [header; row7] f95)) 7
     = Some true.
Proof.
  assert (H : db7 true !! Schema.id rec7_at_95 = Some (obj7 true)) by reflexivity.
  destruct (notified_is_monotone all_quiet (db7 true) [header; row7] f95
              [rec7; rec7_at_95] rec7_at_95 (obj7 true) H) as (Hu & Hf & Hc).
  split; [exact H|]. split; [exact Hu|]. split; [exact Hf|exact (Hc eq_refl)].
Defined.

(** The order 7, due since 2020, on a day of 2024 with every
    collaborator answering: one notice, then the flag. *)
Lemma expiration_notice_rule_witness :
  upsert_ok env_quiet = true /\ refresh_ok env_quiet = true
  /\ notify_calls (out_trace (process_row env_quiet ∅ rec7)) = [(7, day_2020_01_01)]
  /\ out_trace (process_row env_quiet ∅ rec7)
     = [Commit (obj7 false); Notify 7 day_2020_01_01; Commit (obj7 true)]
  /\ notified_at (out_db (process_row env_quiet ∅ rec7)) 7 = Some true
  /\ calls_for 7 (out_trace (save_rows all_quiet 0 ∅ [row8; row7; row7] f90))
     = [day_2020_01_01].
Proof.
  destruct (expiration_notice_rule env_quiet ∅ rec7 all_quiet
              [header; row8; row7; row7] [row8] [row7] row7 f90 eq_refl eq_refl)
    as (H & _ & _ & _ & Hfirst).
  destruct (H (conj eq_refl eq_refl)) as (Hc & Hok & _).
  destruct (Hok eq_refl eq_refl) as (Ht & _ & Hn).
  split; [reflexivity|]. split; [reflexivity|]. split; [exact Hc|].
  split; [exact Ht|]. split; [exact Hn|].
  apply Hfirst.
  - intros k. reflexivity.
  - repeat constructor.
  - repeat constructor. vm_compute. discriminate.
  - vm_compute. reflexivity.
  - vm_compute. discriminate.
  - vm_compute. reflexivity.
Defined.

(** The sheet with the order 7, a row whose id is not a number and the
    order 8: the run stops at the second row and the order 8 is not
    stored. *)
Lemma malformed_row_aborts_cycle_witness :
  (forall k, quiet (all_quiet k) = true)
  /\ Forall (fun raw => valid_row f90 raw = true) [row7]
  /\ valid_row f90 row_bad_id = false
  /\ out_result (_save_to_db all_quiet ∅ [header; row7; row_bad_id; row8] f90)
     = Raise ValueError
  /\ is_Some (out_db (_save_to_db all_quiet ∅ [header; row7; row_bad_id; row8] f90) !! 7)
  /\ out_db (_save_to_db all_quiet ∅ [header; row7; row_bad_id; row8] f90) !! 8 = None.
Proof.
  assert (Hq : forall k, quiet (all_quiet k) = true) by (intros k; reflexivity).
  assert (Hpre : Forall (fun raw => valid_row f90 raw = true) [row7])
    by (repeat constructor).
  assert (Hbad : valid_row f90 row_bad_id = false) by reflexivity.
  destruct (malformed_row_aborts_cycle all_quiet ∅ header [row7] [row8]
              row_bad_id f90 Hq Hpre Hbad)
    as ((e & He & Hres) & _ & _ & _ & Hstored & Hother).
  split; [exact Hq|]. split; [exact Hpre|]. split; [exact Hbad|].
  split; [|split].
  - assert (e = ValueError) as -> by (vm_compute in He; by injection He as <-).
    exact Hres.
  - apply (Hstored row7 7); [by apply list_elem_of_here|reflexivity].
  - apply (Hother 8). repeat constructor. vm_compute. discriminate.
Defined.

(** The order 7 is due and the notice service raises: the flag stays
    false and the next handling calls the service again. *)
Lemma notifier_failure_keeps_flag_witness :
  upsert_ok env_bot_down = true /\ refresh_ok env_bot_down = true
  /\ expired env_bot_down (merge ∅ rec7) = true
  /\ notify_ok env_bot_down = false
  /\ out_result (process_row env_bot_down ∅ rec7) = Raise NotifierError
  /\ notified_at (out_db (process_row env_bot_down ∅ rec7)) 7 = Some false
  /\ notify_calls
       (out_trace (process_row env_quiet (out_db (process_row env_bot_down ∅ rec7)) rec7))
     = [(7, day_2020_01_01)].
Proof.
  assert (He : expired env_bot_down (merge ∅ rec7) = true)
    by (vm_compute; reflexivity).
  assert (Hd : date_lt (Schema.delivery_date rec7) (today env_quiet) = true)
    by (vm_compute; reflexivity).
  destruct (notifier_failure_keeps_flag env_bot_down env_quiet ∅ rec7
              eq_refl eq_refl He eq_refl) as (Hr & Hn & _ & Hagain).
  split; [reflexivity|]. split; [reflexivity|]. split; [exact He|].
  split; [reflexivity|]. split; [exact Hr|]. split; [exact Hn|].
  exact (Hagain eq_refl eq_refl Hd).
Defined.





(** A row of five fields and a row of two. *)
Lemma only_first_four_fields_witness :
  (length row_two_fields < 4)%nat
  /\ present_fields_parse row_two_fields = true
  /\ Schema.__init__ f90 row_two_fields = Raise IndexError
  /\ Schema.__init__ f90 row_five_fields = Schema.__init__ f90 row7.
Proof.
  assert (H1 : (length row_two_fields < 4)%nat) by (vm_compute; lia).
  assert (H2 : present_fields_parse row_two_fields = true) by reflexivity.
  destruct (only_first_four_fields f90 "7" "1001" "50.00" "01.01.2020"
              ["note"%string] row_two_fields) as [Hfive Hshort].
  destruct (Hshort H1) as [Hindex _].
  split; [exact H1|]. split; [exact H2|]. split; [exact (Hindex H2)|exact Hfive].
Defined.

(** ** Inputs on which the code is not what its description says *)

(** C3: a sheet with one malformed row and one valid row after it, and
    collaborators that answer: the valid row is not stored. *)
Lemma malformed_row_hides_later_rows :
  valid_row f90 row_bad_id = false
  /\ valid_row f90 row8 = true
  /\ row_id f90 row8 = Some 8
  /\ quiet env_quiet = true
  /\ out_db (_save_to_db all_quiet ∅ [header; row_bad_id; row8] f90) !! 8 = None
  /\ out_result (_save_to_db all_quiet ∅ [header; row_bad_id; row8] f90)
     = Raise ValueError.
Proof. repeat split; vm_compute; reflexivity. Qed.



(** C10: a row of three fields whose first field is not a number ends
    with [ValueError], not with [IndexError]. *)
Lemma short_row_raises_value_error :
  (length row_three_fields < 4)%nat
  /\ Schema.__init__ f90 row_three_fields = Raise ValueError
  /\ Schema.__init__ f90 row_three_fields <> Raise IndexError.
Proof.
  split; [vm_compute; lia|]. split; [vm_compute; reflexivity|].
  vm_compute. discriminate.
Qed.

(** * Further properties *)

(** ** The rate read in the feed *)

Section Feed.
Implicit Types (p s w v r : list ascii) (c : ascii).

Lemma strip_prefix_sound p : forall s r, strip_prefix p s = Some r -> s = p ++ r.
Proof.
  induction p as [|a p IH]; intros s r H; simpl in *; [by injection H as ->|].
  destruct s as [|c s]; [discriminate|].
  destruct (Ascii.eqb_spec c a) as [->|]; [|discriminate].
  by rewrite (IH _ _ H).
Qed.

Lemma strip_prefix_app p r : strip_prefix p (p ++ r) = Some r.
Proof. induction p as [|a p IH]; simpl; [done|]. by rewrite Ascii.eqb_refl. Qed.

(** Whether [p] begins a text is settled by as many characters as [p] has. *)
Lemma is_prefix_app p : forall w r,
  (length p <= length w)%nat -> is_prefix p (w ++ r) = is_prefix p w.
Proof.
  unfold is_prefix. induction p as [|a p IH]; intros w r Hlen; simpl; [done|].
  destruct w as [|c w]; simpl in *; [lia|].
  destruct (Ascii.eqb c a); [|done]. apply IH. lia.
Qed.

Lemma occurs_here p s : is_prefix p s = true -> occurs p s = true.
Proof. intros H. destruct s; simpl; by rewrite H. Qed.

Lemma occurs_app p a b : occurs p (a ++ p ++ b) = true.
Proof.
  induction a as [|c a IH]; simpl app.
  - apply occurs_here. unfold is_prefix. by rewrite strip_prefix_app.
  - simpl. rewrite IH. apply orb_true_r.
Qed.

Lemma span_value_sound s : forall v r,
  span_value s = (v, r) ->
  s = v ++ r /\ Forall (fun c => is_less_than c = false) v
  /\ (r = [] \/ exists t, r = "<"%char :: t).
Proof.
  induction s as [|c s IH]; intros v r H; simpl in H.
  - injection H as <- <-. split; [done|]. split; [constructor|by left].
  - destruct (is_less_than c) eqn:Hc.
    + injection H as <- <-. split; [done|]. split; [constructor|]. right.
      exists s. f_equal. apply code_inj. unfold is_less_than in Hc.
      by apply Z.eqb_eq in Hc.
    + destruct (span_value s) as [v' r'] eqn:E. injection H as <- <-.
      destruct (IH v' r' eq_refl) as (-> & Hv & Hr).
      split; [done|]. split; [by constructor|exact Hr].
Qed.

Lemma span_value_app v r :
  Forall (fun c => is_less_than c = false) v ->
  (r = [] \/ exists t, r = "<"%char :: t) ->
  span_value (v ++ r) = (v, r).
Proof.
  intros Hv Hr. induction Hv as [|c v Hc Hv IH]; simpl.
  - destruct Hr as [->|[t ->]]; done.
  - by rewrite Hc, IH.
Qed.

Lemma value_group_sound s v :
  value_group s = Some v ->
  exists r, s = Value_tag ++ v ++ r /\ v <> []
            /\ Forall (fun c => is_less_than c = false) v
            /\ (r = [] \/ exists t, r = "<"%char :: t).
Proof.
  unfold value_group. intros H.
  destruct (strip_prefix Value_tag s) as [r0|] eqn:Hp; [|discriminate].
  apply strip_prefix_sound in Hp as ->.
  destruct (span_value r0) as [v' r] eqn:Hs.
  destruct (span_value_sound _ _ _ Hs) as (-> & Hv & Hr).
  destruct v' as [|c v']; [discriminate|]. injection H as <-.
  by exists r.
Qed.

Lemma lazy_scan_sound s : forall v,
  lazy_scan s = Some v ->
  exists m r, s = m ++ Value_tag ++ v ++ r
              /\ Forall (fun c => is_newline c = false) m
              /\ v <> [] /\ Forall (fun c => is_less_than c = false) v
              /\ (r = [] \/ exists t, r = "<"%char :: t).
Proof.
  induction s as [|c s IH]; intros v H; simpl in H.
  - discriminate.
  - destruct (value_group (c :: s)) eqn:Hg.
    + injection H as ->.
      destruct (value_group_sound _ _ Hg) as (r & Hs & Hrest).
      exists [], r. split; [done|]. split; [constructor|exact Hrest].
    + destruct (is_newline c) eqn:Hc; [discriminate|].
      destruct (IH v H) as (m & r & -> & Hm & Hrest).
      exists (c :: m), r. split; [done|]. split; [by constructor|exact Hrest].
Qed.

(** What [re.search] found when it found something. *)
Lemma re_search_sound s : forall v,
  re_search s = Some v ->
  exists pre mid r,
    s = pre ++ USD ++ mid ++ Value_tag ++ v ++ r
    /\ mid <> [] /\ Forall (fun c => is_newline c = false) mid
    /\ v <> [] /\ Forall (fun c => is_less_than c = false) v
    /\ (r = [] \/ exists t, r = "<"%char :: t).
Proof.
  assert (Hhere : forall s v, match_usd s = Some v ->
    exists mid r, s = USD ++ mid ++ Value_tag ++ v ++ r
      /\ mid <> [] /\ Forall (fun c => is_newline c = false) mid
      /\ v <> [] /\ Forall (fun c => is_less_than c = false) v
      /\ (r = [] \/ exists t, r = "<"%char :: t)).
  { intros s0 v H. unfold match_usd in H.
    destruct (strip_prefix USD s0) as [[|c t]|] eqn:Hp; try discriminate.
    apply strip_prefix_sound in Hp as ->.
    destruct (is_newline c) eqn:Hc; [discriminate|].
    destruct (lazy_scan_sound _ _ H) as (m & r & -> & Hm & Hrest).
    exists (c :: m), r. split; [done|]. split; [done|].
    split; [by constructor|exact Hrest]. }
  induction s as [|c s IH]; intros v H; simpl in H.
  - discriminate.
  - destruct (match_usd (c :: s)) eqn:Hm.
    + injection H as ->.
      destruct (Hhere _ _ Hm) as (mid & r & Hs & Hrest). by exists [], mid, r.
    + destruct (IH v H) as (pre & mid & r & -> & Hrest).
      by exists (c :: pre), mid, r.
Qed.

(** No match begins before the first place where [p] is found. *)
Lemma occurs_false_prefix p q w r :
  (length p <= length (q ++ w))%nat -> q <> [] ->
  occurs p (q ++ w) = false -> strip_prefix p (q ++ w ++ r) = None.
Proof.
  intros Hlen Hq Hocc. destruct q as [|c q]; [done|].
  rewrite app_assoc. pose proof (is_prefix_app p ((c :: q) ++ w) r Hlen) as E.
  change ((c :: q) ++ w) with (c :: q ++ w) in *. simpl in Hocc.
  apply orb_false_iff in Hocc as [Hp _].
  rewrite Hp in E. unfold is_prefix in E.
  by destruct (strip_prefix p ((c :: q ++ w) ++ r)).
Qed.

Lemma occurs_tail p c s : occurs p (c :: s) = false -> occurs p s = false.
Proof. simpl. intros H. by apply orb_false_iff in H as [_ H]. Qed.

Lemma lazy_scan_cons c s :
  lazy_scan (c :: s)
  = match value_group (c :: s) with
    | Some v => Some v
    | None => if is_newline c then None else lazy_scan s
    end.
Proof. reflexivity. Qed.

Lemma lazy_scan_here s v : value_group s = Some v -> lazy_scan s = Some v.
Proof.
  intros H. destruct s as [|c s]; [by vm_compute in H|].
  by rewrite lazy_scan_cons, H.
Qed.

Lemma re_search_cons c s :
  re_search (c :: s)
  = match match_usd (c :: s) with
    | Some v => Some v
    | None => re_search s
    end.
Proof. reflexivity. Qed.

Lemma re_search_here s v : match_usd s = Some v -> re_search s = Some v.
Proof.
  intros H. destruct s as [|c s]; [by vm_compute in H|].
  by rewrite re_search_cons, H.
Qed.

Lemma lazy_scan_first m v r :
  Forall (fun c => is_newline c = false) m ->
  occurs Value_tag (m ++ list_ascii_of_string "<Value") = false ->
  v <> [] -> Forall (fun c => is_less_than c = false) v ->
  (r = [] \/ exists t, r = "<"%char :: t) ->
  lazy_scan (m ++ Value_tag ++ v ++ r) = Some v.
Proof.
  intros Hm Hocc Hv Hlt Hr.
  assert (Hg : value_group (Value_tag ++ v ++ r) = Some v).
  { unfold value_group. rewrite strip_prefix_app, (span_value_app v r Hlt Hr).
    by destruct v. }
  induction Hm as [|c m Hc Hm IH].
  - by apply lazy_scan_here.
  - change ((c :: m) ++ Value_tag ++ v ++ r) with (c :: m ++ Value_tag ++ v ++ r).
    rewrite lazy_scan_cons.
    assert (Hnone : value_group (c :: m ++ Value_tag ++ v ++ r) = None).
    { unfold value_group.
      change (c :: m ++ Value_tag ++ v ++ r)
        with ((c :: m) ++ (list_ascii_of_string "<Value" ++ [">"%char]) ++ v ++ r).
      rewrite <- (app_assoc (list_ascii_of_string "<Value")).
      rewrite (occurs_false_prefix Value_tag (c :: m)
                 (list_ascii_of_string "<Value") _); [done| |done|exact Hocc].
      rewrite length_app. simpl. lia. }
    rewrite Hnone, Hc. apply IH. by apply occurs_tail in Hocc.
Qed.

(** The first [USD] that is followed, after a character at least and
    on the same line, by a [<Value>] that holds something, gives the
    answer. *)
Lemma re_search_first pre c m v r :
  occurs USD (pre ++ list_ascii_of_string "US") = false ->
  Forall (fun c => is_newline c = false) (c :: m) ->
  occurs Value_tag (m ++ list_ascii_of_string "<Value") = false ->
  v <> [] -> Forall (fun c => is_less_than c = false) v ->
  (r = [] \/ exists t, r = "<"%char :: t) ->
  re_search (pre ++ USD ++ (c :: m) ++ Value_tag ++ v ++ r) = Some v.
Proof.
  intros Hpre Hmid Hocc Hv Hlt Hr.
  inversion Hmid as [|? ? Hc Hm]; subst.
  assert (Hhere : match_usd (USD ++ (c :: m) ++ Value_tag ++ v ++ r) = Some v).
  { unfold match_usd. rewrite strip_prefix_app. simpl. rewrite Hc.
    by apply lazy_scan_first. }
  induction pre as [|a pre IH].
  - by apply re_search_here.
  - change ((a :: pre) ++ USD ++ (c :: m) ++ Value_tag ++ v ++ r)
      with (a :: pre ++ USD ++ (c :: m) ++ Value_tag ++ v ++ r).
    rewrite re_search_cons.
    assert (Hnone : match_usd (a :: pre ++ USD ++ (c :: m) ++ Value_tag ++ v ++ r) = None).
    { unfold match_usd.
      change (a :: pre ++ USD ++ (c :: m) ++ Value_tag ++ v ++ r)
        with ((a :: pre) ++ (list_ascii_of_string "US" ++ ["D"%char])
                ++ (c :: m) ++ Value_tag ++ v ++ r).
      rewrite <- (app_assoc (list_ascii_of_string "US")).
      rewrite (occurs_false_prefix USD (a :: pre) (list_ascii_of_string "US") _);
        [done| |done|exact Hpre].
      rewrite length_app. simpl. lia. }
    rewrite Hnone. apply IH. by apply occurs_tail in Hpre.
Qed.
End Feed.

(** X1: a rate returned by [_get_usd_currency_rate] was read in the
    response after a [USD], at least one character and no newline further,
    inside a [<Value>] up to the next [<] or the end of the text, and it
    is [float] of that text with every comma turned into a point. *)
Theorem usd_rate_comes_from_the_feed (xml : string) (x : float) :
  _get_usd_currency_rate xml = Done x ->
  exists pre mid v rest,
    list_ascii_of_string xml = pre ++ USD ++ mid ++ Value_tag ++ v ++ rest
    /\ mid <> [] /\ Forall (fun c => is_newline c = false) mid
    /\ v <> [] /\ Forall (fun c => is_less_than c = false) v
    /\ (rest = [] \/ exists t, rest = "<"%char :: t)
    /\ py_float (string_of_list_ascii (replace_comma v)) = Ok x.
Proof.
  unfold _get_usd_currency_rate. intros H.
  destruct (re_search (list_ascii_of_string xml)) as [v|] eqn:Hs; [|discriminate].
  destruct (re_search_sound _ _ Hs) as (pre & mid & rest & Hxml & Hmid & Hnl & Hv & Hlt & Hr).
  exists pre, mid, v, rest.
  destruct (py_float (string_of_list_ascii (replace_comma v))) eqn:Hf; [|discriminate].
  by injection H as <-.
Qed.

Lemma usd_rate_comes_from_the_feed_witness :
  _get_usd_currency_rate feed_sample = Done f90
  /\ exists pre mid v rest,
      list_ascii_of_string feed_sample = pre ++ USD ++ mid ++ Value_tag ++ v ++ rest
      /\ mid <> [] /\ Forall (fun c => is_newline c = false) mid
      /\ v <> [] /\ Forall (fun c => is_less_than c = false) v
      /\ (rest = [] \/ exists t, rest = "<"%char :: t)
      /\ py_float (string_of_list_ascii (replace_comma v)) = Ok f90.
Proof.
  assert (H : _get_usd_currency_rate feed_sample = Done f90)
    by (vm_compute; reflexivity).
  split; [exact H|]. exact (usd_rate_comes_from_the_feed feed_sample f90 H).
Defined.

(** X2: when the first [USD] of the response is followed on its line by
    a first [<Value>] that holds a text without [<], the function answers
    with [float] of that text, commas turned into points, whatever
    stands before the [USD] and after the value. *)
Theorem usd_rate_of_first_usd_entry
    (pre m v rest : list ascii) (c : ascii) :
  occurs USD (pre ++ list_ascii_of_string "US") = false ->
  Forall (fun a => is_newline a = false) (c :: m) ->
  occurs Value_tag (m ++ list_ascii_of_string "<Value") = false ->
  v <> [] -> Forall (fun a => is_less_than a = false) v ->
  (rest = [] \/ exists t, rest = "<"%char :: t) ->
  _get_usd_currency_rate
    (string_of_list_ascii (pre ++ USD ++ (c :: m) ++ Value_tag ++ v ++ rest))
  = match py_float (string_of_list_ascii (replace_comma v)) with
    | Ok x => Done x
    | Raise e => Failed (RowError e)
    end.
Proof.
  intros Hpre Hmid Hocc Hv Hlt Hr. unfold _get_usd_currency_rate.
  rewrite list_ascii_of_string_of_list_ascii.
  by rewrite (re_search_first pre c m v rest Hpre Hmid Hocc Hv Hlt Hr).
Qed.

Lemma usd_rate_of_first_usd_entry_witness :
  occurs USD (list_ascii_of_string "<CharCode>AUD</CharCode><CharCode>"
              ++ list_ascii_of_string "US") = false
  /\ Forall (fun a => is_newline a = false)
            (list_ascii_of_string "</CharCode><Nominal>1</Nominal>")
  /\ occurs Value_tag (list_ascii_of_string "/CharCode><Nominal>1</Nominal>"
                      ++ list_ascii_of_string "<Value") = false
  /\ _get_usd_currency_rate
       "<CharCode>AUD</CharCode><CharCode>USD</CharCode><Nominal>1</Nominal><Value>90,00</Value>"
     = Done f90.
Proof.
  assert (H1 : occurs USD (list_ascii_of_string "<CharCode>AUD</CharCode><CharCode>"
                           ++ list_ascii_of_string "US") = false) by reflexivity.
  assert (H2 : Forall (fun a => is_newline a = false)
                      (list_ascii_of_string "</CharCode><Nominal>1</Nominal>"))
    by (repeat constructor).
  assert (H3 : occurs Value_tag (list_ascii_of_string "/CharCode><Nominal>1</Nominal>"
                                 ++ list_ascii_of_string "<Value") = false)
    by reflexivity.
  assert (H4 : list_ascii_of_string "90,00" <> []) by discriminate.
  assert (H5 : Forall (fun a => is_less_than a = false) (list_ascii_of_string "90,00"))
    by (repeat constructor).
  pose proof (usd_rate_of_first_usd_entry
                (list_ascii_of_string "<CharCode>AUD</CharCode><CharCode>")
                (list_ascii_of_string "/CharCode><Nominal>1</Nominal>")
                (list_ascii_of_string "90,00")
                (list_ascii_of_string "</Value>") "<"%char
                H1 H2 H3 H4 H5 (or_intror (ex_intro _ _ eq_refl))) as H.
  split; [exact H1|]. split; [exact H2|]. split; [exact H3|]. exact H.
Defined.

(** X3: a response in which [USD] or [<Value>] is nowhere to be found
    makes the function raise [AttributeError], and the only other
    exception it raises is the [ValueError] of [float]. *)
Theorem usd_rate_needs_usd_and_value (xml : string) :
  (occurs USD (list_ascii_of_string xml) = false
   \/ occurs Value_tag (list_ascii_of_string xml) = false ->
   _get_usd_currency_rate xml = Failed AttributeError)
  /\ (forall e, _get_usd_currency_rate xml = Failed e ->
      e = AttributeError \/ e = RowError ValueError).
Proof.
  unfold _get_usd_currency_rate. split.
  - intros Hno.
    destruct (re_search (list_ascii_of_string xml)) as [v|] eqn:Hs; [|done].
    destruct (re_search_sound _ _ Hs) as (pre & mid & rest & Hxml & _).
    rewrite Hxml in Hno. destruct Hno as [Hno|Hno].
    + by rewrite occurs_app in Hno.
    + rewrite (app_assoc USD), (app_assoc pre), occurs_app in Hno. discriminate.
  - intros e H.
    destruct (re_search (list_ascii_of_string xml)) as [v|]; [|left; congruence].
    destruct (py_float (string_of_list_ascii (replace_comma v))) eqn:Hf; [discriminate|].
    right. injection H as <-. by rewrite (py_float_raises _ _ Hf).
Qed.

Lemma usd_rate_needs_usd_and_value_witness :
  occurs USD (list_ascii_of_string feed_without_usd) = false
  /\ _get_usd_currency_rate feed_without_usd = Failed AttributeError.
Proof.
  assert (H : occurs USD (list_ascii_of_string feed_without_usd) = false)
    by reflexivity.
  split; [exact H|].
  exact (proj1 (usd_rate_needs_usd_and_value feed_without_usd) (or_introl H)).
Defined.

(** ** The periodic job *)

(** X4: the job reads the sheet, then the rate, then handles the rows.
    When the sheet or the feed cannot be fetched, or when the response
    has no [USD] or no [<Value>], the run ends with the exception of that
    step, the table is as it was and nothing was committed or notified.
    A run that committed or notified anything had both fetches and a rate,
    and is the run of [_save_to_db] on them. *)
Theorem job_stops_before_the_rows (env : JobEnv) (db : table) :
  let j := job_update_date env db in
  (sheet_answer env = None
   \/ feed_answer env = None
   \/ (exists xml, feed_answer env = Some xml
       /\ (occurs USD (list_ascii_of_string xml) = false
           \/ occurs Value_tag (list_ascii_of_string xml) = false)) ->
   job_db j = db /\ job_trace j = []
   /\ exists e, job_end j = Failed e /\ forall r, e <> RowError r)
  /\ (job_trace j <> [] ->
      exists rows xml usd_rate,
        sheet_answer env = Some rows /\ feed_answer env = Some xml
        /\ _get_usd_currency_rate xml = Done usd_rate
        /\ job_db j = out_db (_save_to_db (row_env env) db rows usd_rate)
        /\ job_trace j = out_trace (_save_to_db (row_env env) db rows usd_rate)).
Proof.
  unfold job_update_date. split.
  - intros Hfail.
    destruct (sheet_answer env) as [rows|]; simpl;
      [|split; [done|split; [done|by exists SheetError]]].
    destruct (feed_answer env) as [xml|]; simpl;
      [|split; [done|split; [done|by exists FeedError]]].
    destruct Hfail as [Hs|[Hf|(xml' & Hx & Hno)]]; [discriminate|discriminate|].
    injection Hx as <-.
    rewrite (proj1 (usd_rate_needs_usd_and_value xml) Hno). simpl.
    split; [done|split; [done|by exists AttributeError]].
  - intros Htr.
    destruct (sheet_answer env) as [rows|]; simpl in *; [|done].
    destruct (feed_answer env) as [xml|]; simpl in *; [|done].
    destruct (_get_usd_currency_rate xml) as [usd_rate|e] eqn:Hr; simpl in *; [|done].
    by exists rows, xml, usd_rate.
Qed.

Lemma job_stops_before_the_rows_witness :
  (exists xml, feed_answer job_env_no_usd = Some xml
     /\ (occurs USD (list_ascii_of_string xml) = false
         \/ occurs Value_tag (list_ascii_of_string xml) = false))
  /\ job_db (job_update_date job_env_no_usd (db7 false)) = db7 false
  /\ job_trace (job_update_date job_env_no_usd (db7 false)) = []
  /\ job_trace (job_update_date job_env_sample (db7 false)) <> []
  /\ notified_at (job_db (job_update_date job_env_sample (db7 false))) 7 = Some true.
Proof.
  assert (H : exists xml, feed_answer job_env_no_usd = Some xml
     /\ (occurs USD (list_ascii_of_string xml) = false
         \/ occurs Value_tag (list_ascii_of_string xml) = false)).
  { exists feed_without_usd. split; [reflexivity|left; reflexivity]. }
  destruct (job_stops_before_the_rows job_env_no_usd (db7 false)) as [Hstop _].
  destruct (Hstop (or_intror (or_intror H))) as (Hdb & Htr & _).
  assert (Hne : job_trace (job_update_date job_env_sample (db7 false)) <> [])
    by (vm_compute; discriminate).
  destruct (job_stops_before_the_rows job_env_sample (db7 false)) as [_ Hran].
  destruct (Hran Hne) as (rows & xml & usd_rate & _ & _ & _ & _ & _).
  split; [exact H|]. split; [exact Hdb|]. split; [exact Htr|]. split; [exact Hne|].
  vm_compute. reflexivity.
Defined.

(** ** The texts that [float] accepts *)

Section FloatText.
Implicit Types (c : ascii) (s w t r : list ascii).

Local Abbreviation ok_char := (fun c => float_char c = true).

Lemma digit_float_char c : is_digit c = true -> float_char c = true.
Proof. unfold float_char. by intros ->. Qed.

Lemma take_sign_chars s b t :
  take_sign s = (b, t) -> exists w, s = w ++ t /\ Forall ok_char w.
Proof.
  unfold take_sign. destruct s as [|c s]; [intros [= <- <-]; by exists []|].
  destruct (Ascii.eqb_spec c "-") as [->|_];
    [intros [= <- <-]; exists ["-"%char]; split; [done|by repeat constructor]|].
  destruct (Ascii.eqb_spec c "+") as [->|_];
    [intros [= <- <-]; exists ["+"%char]; split; [done|by repeat constructor]|].
  intros [= <- <-]. by exists [].
Qed.

Lemma span_digits_chars s : forall ds r,
  span_digits s = (ds, r) -> s = ds ++ r /\ Forall ok_char ds.
Proof.
  induction s as [|c s IH]; intros ds r H; simpl in H; [by injection H as <- <-|].
  destruct (is_digit c) eqn:Hc; [|by injection H as <- <-].
  destruct (span_digits s) as [ds' r'] eqn:E. injection H as <- <-.
  destruct (IH _ _ eq_refl) as [-> Hds].
  split; [done|]. constructor; [by apply digit_float_char|exact Hds].
Qed.

Lemma take_exponent_chars s e r :
  take_exponent s = (e, r) -> exists w, s = w ++ r /\ Forall ok_char w.
Proof.
  unfold take_exponent. destruct s as [|c s]; [intros [= <- <-]; by exists []|].
  destruct ((code c =? 101) || (code c =? 69)) eqn:Hc;
    [|intros [= <- <-]; by exists []].
  assert (Hok : float_char c = true).
  { apply orb_true_iff in Hc as [Hc|Hc]; apply Z.eqb_eq in Hc.
    - assert (c = "e"%char) as -> by by apply code_inj. reflexivity.
    - assert (c = "E"%char) as -> by by apply code_inj. reflexivity. }
  destruct (take_sign s) as [eneg t1] eqn:Hsgn.
  destruct (span_digits t1) as [ds t2] eqn:Hds.
  destruct (take_sign_chars _ _ _ Hsgn) as (w1 & -> & Hw1).
  destruct (span_digits_chars _ _ _ Hds) as [-> Hw2].
  destruct ds as [|d ds]; [intros [= <- <-]; by exists []|].
  intros [= <- <-]. exists (c :: w1 ++ d :: ds). split.
  - simpl. by rewrite <- app_assoc.
  - constructor; [exact Hok|]. by apply Forall_app.
Qed.

Lemma fraction_chars s2 fp s3 :
  match s2 with
  | "."%char :: t => span_digits t
  | _ => ([], s2)
  end = (fp, s3) -> exists w, s2 = w ++ s3 /\ Forall ok_char w.
Proof.
  destruct s2 as [|c t]; [intros [= <- <-]; by exists []|].
  destruct (Ascii.eqb_spec c ".") as [->|Hne].
  - intros H. destruct (span_digits_chars _ _ _ H) as [-> Hfp].
    exists ("."%char :: fp). split; [done|]. by constructor.
  - intros H. exists []. split; [|constructor]. simpl.
    destruct c as [[] [] [] [] [] [] [] []]; try (by injection H as <- <-).
    by destruct Hne.
Qed.

Lemma strtod_chars s x r :
  strtod s = Some (x, r) -> exists w, s = w ++ r /\ Forall ok_char w.
Proof.
  unfold strtod.
  destruct (take_sign s) as [neg s1] eqn:Hsgn.
  destruct (take_sign_chars _ _ _ Hsgn) as (w0 & -> & Hw0).
  destruct (span_digits s1) as [ip s2] eqn:Hip.
  destruct (span_digits_chars _ _ _ Hip) as [-> Hwip].
  destruct (match s2 with
            | "."%char :: t => span_digits t
            | _ => ([], s2)
            end) as [fp s3] eqn:Hfp.
  destruct (fraction_chars _ _ _ Hfp) as (wf & -> & Hwf).
  destruct (ip ++ fp) as [|d ds]; [discriminate|].
  destruct (_ || _); [discriminate|].
  destruct (take_exponent s3) as [e s4] eqn:He.
  destruct (take_exponent_chars _ _ _ He) as (we & -> & Hwe).
  intros [= _ <-]. exists (w0 ++ ip ++ wf ++ we). split.
  - by rewrite <- !app_assoc.
  - by repeat apply Forall_app_2.
Qed.

Lemma ci_prefix_chars t : forall s r,
  Forall (fun a => existsb (Ascii.eqb a) (list_ascii_of_string "einftya") = true) t ->
  ci_prefix t s = Some r -> exists w, s = w ++ r /\ Forall ok_char w.
Proof.
  induction t as [|a t IH]; intros s r Ht H; simpl in H.
  - injection H as <-. by exists [].
  - destruct s as [|c s]; [discriminate|].
    destruct (Ascii.eqb_spec (to_lower c) a) as [Hc|]; [|discriminate].
    inversion Ht as [|? ? Ha Ht']; subst.
    destruct (IH _ _ Ht' H) as (w & -> & Hw).
    exists (c :: w). split; [done|]. constructor; [|exact Hw].
    unfold float_char. rewrite Ha. by rewrite !orb_true_r.
Qed.

Lemma parse_inf_or_nan_chars s x r :
  parse_inf_or_nan s = Some (x, r) -> exists w, s = w ++ r /\ Forall ok_char w.
Proof.
  unfold parse_inf_or_nan.
  destruct (take_sign s) as [neg s1] eqn:Hsgn.
  destruct (take_sign_chars _ _ _ Hsgn) as (w0 & -> & Hw0).
  destruct (ci_prefix (list_ascii_of_string "inf") s1) as [r1|] eqn:H1.
  - destruct (ci_prefix_chars (list_ascii_of_string "inf") _ _
                ltac:(by repeat constructor) H1) as (w1 & -> & Hw1).
    destruct (ci_prefix (list_ascii_of_string "inity") r1) as [r2|] eqn:H2.
    + destruct (ci_prefix_chars (list_ascii_of_string "inity") _ _
                  ltac:(by repeat constructor) H2) as (w2 & -> & Hw2).
      intros [= _ <-]. exists (w0 ++ w1 ++ w2). split.
      * by rewrite <- !app_assoc.
      * by repeat apply Forall_app_2.
    + intros [= _ <-]. exists (w0 ++ w1). split.
      * by rewrite <- !app_assoc.
      * by apply Forall_app_2.
  - destruct (ci_prefix (list_ascii_of_string "nan") s1) as [r1|] eqn:H2; [|discriminate].
    destruct (ci_prefix_chars (list_ascii_of_string "nan") _ _
                ltac:(by repeat constructor) H2) as (w1 & -> & Hw1).
    intros [= _ <-]. exists (w0 ++ w1). split.
    + by rewrite <- !app_assoc.
    + by apply Forall_app_2.
Qed.

Lemma lstrip_chars s : Forall ok_char (lstrip s) -> Forall ok_char s.
Proof.
  induction s as [|c s IH]; simpl; [done|].
  destruct (py_isspace c) eqn:Hc; [|done].
  intros H. constructor; [|by apply IH].
  unfold float_char. rewrite Hc. by rewrite orb_true_r.
Qed.

Lemma rstrip_chars s : Forall ok_char (rstrip s) -> Forall ok_char s.
Proof.
  unfold rstrip. intros H. apply Forall_rev in H. rewrite rev_involutive in H.
  apply lstrip_chars in H. apply Forall_rev in H. by rewrite rev_involutive in H.
Qed.

Lemma strip_underscores_chars s : forall prev s',
  strip_underscores prev s = Some s' -> Forall ok_char s' -> Forall ok_char s.
Proof.
  induction s as [|c s IH]; intros prev s' H Hs'; simpl in H; [constructor|].
  destruct (is_underscore c) eqn:Hc.
  - destruct (is_digit prev); [|discriminate].
    constructor; [|by apply (IH c s')].
    unfold float_char. rewrite Hc. by rewrite orb_true_r.
  - destruct (is_underscore prev && negb (is_digit c)); [discriminate|].
    destruct (strip_underscores c s) as [s1|] eqn:E; [|discriminate].
    injection H as <-. inversion Hs' as [|? ? Hc' Hs1]; subst.
    constructor; [exact Hc'|by apply (IH c s1)].
Qed.

Lemma py_float_chars text x :
  py_float text = Ok x -> Forall ok_char (list_ascii_of_string text).
Proof.
  unfold py_float.
  destruct (strip_underscores Ascii.zero (list_ascii_of_string text)) as [s|] eqn:Hu;
    [|discriminate].
  intros H. apply (strip_underscores_chars _ _ _ Hu).
  apply lstrip_chars, rstrip_chars.
  destruct (strtod (rstrip (lstrip s))) as [[y r]|] eqn:Hp.
  - destruct r; [|discriminate].
    destruct (strtod_chars _ _ _ Hp) as (w & -> & Hw). by rewrite app_nil_r.
  - destruct (parse_inf_or_nan (rstrip (lstrip s))) as [[y r]|] eqn:Hq; [|discriminate].
    destruct r; [|discriminate].
    destruct (parse_inf_or_nan_chars _ _ _ Hq) as (w & -> & Hw). by rewrite app_nil_r.
Qed.
End FloatText.



(** ** What a run leaves in the table and in the trace *)

Section Run.
Implicit Types (env : RowEnv) (envs : nat -> RowEnv) (db : table)
               (row : Schema.t) (rows : list (list string)) (i : Z).

Lemma replay_app (tr1 tr2 : list event) db :
  replay (tr1 ++ tr2) db = replay tr2 (replay tr1 db).
Proof. unfold replay. apply fold_left_app. Qed.

(** The five outcomes of the body, with table, trace and ending. *)
Lemma process_row_cases env db row :
  let obj := merge db row in
  let call := Notify (Schema.id row) (Schema.delivery_date row) in
  process_row env db row = mkout db [] (Raise StorageError)
  \/ process_row env db row = mkout (upsert db row) [Commit obj] (Raise StorageError)
  \/ (expired env obj = false
      /\ process_row env db row = mkout (upsert db row) [Commit obj] (Ok ()))
  \/ (expired env obj = true
      /\ exists e, process_row env db row
                   = mkout (upsert db row) [Commit obj; call] (Raise e))
  \/ (expired env obj = true
      /\ process_row env db row
         = mkout (commit (upsert db row) (set_notified obj))
                 [Commit obj; call; Commit (set_notified obj)] (Ok ())).
Proof.
  unfold process_row, _notify_about_delivery_date_expiration. simpl.
  destruct (upsert_ok env); simpl; [|by left].
  destruct (refresh_ok env); simpl; [|by right; left].
  destruct (expired env (merge db row)) eqn:He; [|by right; right; left].
  destruct (notify_ok env); simpl.
  - destruct (flag_ok env); simpl.
    + right; right; right; right. done.
    + right; right; right; left. split; [done|]. by eexists.
  - right; right; right; left. split; [done|]. by eexists.
Qed.

Lemma process_row_replay env db row :
  out_db (process_row env db row) = replay (out_trace (process_row env db row)) db.
Proof.
  destruct (process_row_cases env db row)
    as [-> | [-> | [[_ ->] | [[_ [e ->]] | [_ ->]]]]]; reflexivity.
Qed.

Lemma save_rows_replay envs rows usd_rate : forall k db,
  out_db (save_rows envs k db rows usd_rate)
  = replay (out_trace (save_rows envs k db rows usd_rate)) db.
Proof.
  induction rows as [|raw rest IH]; intros k db; simpl; [done|].
  destruct (Schema.__init__ usd_rate raw) as [row|e]; simpl; [|done].
  pose proof (process_row_replay (envs k) db row) as Hrow.
  destruct (out_result (process_row (envs k) db row)); simpl; [|exact Hrow].
  by rewrite replay_app, <- Hrow, <- IH.
Qed.

Lemma from_row_as_stored row (obj : Test.t) :
  from_row row obj <-> obj = as_stored row (Test.is_notified obj).
Proof.
  unfold from_row, as_stored. split.
  - intros (H1 & H2 & H3 & H4 & H5). destruct obj; simpl in *. by subst.
  - intros ->. done.
Qed.

Lemma merge_as_stored db row : merge db row = as_stored row (flag_of db (Schema.id row)).
Proof. reflexivity. Qed.

(** A row found in the table after the body was there before or carries
    the attributes of the row handled. *)
Lemma process_row_provenance env db row i (obj : Test.t) :
  out_db (process_row env db row) !! i = Some obj ->
  db !! i = Some obj \/ (Schema.id row = i /\ from_row row obj).
Proof.
  intros H. destruct (decide (i = Schema.id row)) as [->|Hne].
  - destruct (process_row_db env db row) as [E | [E | [_ E]]];
      rewrite E in H; [by left| |].
    + rewrite upsert_lookup in H. injection H as <-. right. done.
    + rewrite flag_commit_lookup in H. injection H as <-. right. done.
  - left. by rewrite process_row_lookup_ne in H.
Qed.

Lemma save_rows_provenance envs rows usd_rate i (obj : Test.t) : forall k db,
  out_db (save_rows envs k db rows usd_rate) !! i = Some obj ->
  db !! i = Some obj
  \/ exists raw row, raw ∈ rows /\ Schema.__init__ usd_rate raw = Ok row
                     /\ Schema.id row = i /\ from_row row obj.
Proof.
  induction rows as [|raw rest IH]; intros k db H; simpl in H; [by left|].
  destruct (Schema.__init__ usd_rate raw) as [row|e] eqn:Hinit; simpl in H; [|by left].
  assert (Hrow : forall obj', out_db (process_row (envs k) db row) !! i = Some obj' ->
            db !! i = Some obj'
            \/ exists raw0 row0, raw0 ∈ raw :: rest
                 /\ Schema.__init__ usd_rate raw0 = Ok row0
                 /\ Schema.id row0 = i /\ from_row row0 obj').
  { intros obj' H'. destruct (process_row_provenance _ _ _ _ _ H') as [Hd|[Hi Hf]];
      [by left|]. right. exists raw, row. split; [apply list_elem_of_here|done]. }
  destruct (out_result (process_row (envs k) db row)); simpl in H; [|by apply Hrow].
  destruct (IH _ _ H) as [Hd|(raw0 & row0 & Hin & Hrest)]; [by apply Hrow|].
  right. exists raw0, row0. split; [by apply list_elem_of_further|done].
Qed.

(** A call of the notice service in the body is for the row handled,
    which is due and not yet notified. *)
Lemma process_row_notify env db row i (d : date) :
  (i, d) ∈ notify_calls (out_trace (process_row env db row)) ->
  i = Schema.id row /\ d = Schema.delivery_date row
  /\ date_lt d (today env) = true /\ flag_of db i = false.
Proof.
  intros H.
  assert (Hdue : expired env (merge db row) = true ->
                 date_lt (Schema.delivery_date row) (today env) = true
                 /\ flag_of db (Schema.id row) = false).
  { rewrite expired_merge, merge_as_stored. simpl. intros He.
    apply andb_true_iff in He as [Hf Hd]. by apply negb_true_iff in Hf. }
  destruct (process_row_cases env db row)
    as [E | [E | [[_ E] | [[He [e E]] | [He E]]]]]; rewrite E in H; simpl in H;
    try (by apply elem_of_nil in H).
  - apply list_elem_of_singleton in H. injection H as -> ->.
    destruct (Hdue He). done.
  - apply list_elem_of_singleton in H. injection H as -> ->.
    destruct (Hdue He). done.
Qed.

Lemma flag_of_true db i : flag_of db i = true <-> notified_at db i = Some true.
Proof.
  unfold flag_of, notified_at. destruct (db !! i) as [obj|]; simpl; [|done].
  split; [by intros ->|by intros [= ->]].
Qed.

Lemma save_rows_notify envs rows usd_rate i (d : date) : forall k db,
  (i, d) ∈ notify_calls (out_trace (save_rows envs k db rows usd_rate)) ->
  exists j raw row,
    rows !! j = Some raw /\ Schema.__init__ usd_rate raw = Ok row
    /\ Schema.id row = i /\ Schema.delivery_date row = d
    /\ date_lt d (today (envs (k + j)%nat)) = true
    /\ flag_of db i = false.
Proof.
  induction rows as [|raw rest IH]; intros k db H; simpl in H;
    [by apply elem_of_nil in H|].
  destruct (Schema.__init__ usd_rate raw) as [row|e] eqn:Hinit; simpl in H;
    [|by apply elem_of_nil in H].
  assert (Hrow : (i, d) ∈ notify_calls (out_trace (process_row (envs k) db row)) ->
    exists j raw0 row0,
      (raw :: rest) !! j = Some raw0 /\ Schema.__init__ usd_rate raw0 = Ok row0
      /\ Schema.id row0 = i /\ Schema.delivery_date row0 = d
      /\ date_lt d (today (envs (k + j)%nat)) = true /\ flag_of db i = false).
  { intros H'. destruct (process_row_notify _ _ _ _ _ H') as (-> & -> & Hd & Hf).
    exists 0%nat, raw, row. rewrite Nat.add_0_r. done. }
  destruct (out_result (process_row (envs k) db row)); simpl in H; [|by apply Hrow].
  unfold notify_calls in H. rewrite omap_app in H.
  apply elem_of_app in H as [H|H]; [by apply Hrow|].
  destruct (IH _ _ H) as (j & raw0 & row0 & Hj & Hi0 & Hid & Hdate & Hd & Hf).
  exists (S j), raw0, row0. replace (k + S j)%nat with (S k + j)%nat by lia.
  split; [done|]. split; [done|]. split; [done|]. split; [done|]. split; [done|].
  destruct (flag_of db i) eqn:Hdb; [|done].
  apply flag_of_true in Hdb.
  apply (process_row_keeps_notified (envs k) db row) in Hdb.
  apply flag_of_true in Hdb. congruence.
Qed.

(** A flag found true after the body was true before or follows a call. *)
Lemma process_row_flag env db row i :
  flag_of (out_db (process_row env db row)) i = true ->
  flag_of db i = true
  \/ (i, Schema.delivery_date row) ∈ notify_calls (out_trace (process_row env db row)).
Proof.
  intros H.
  assert (Hup : flag_of (upsert db row) i = true -> flag_of db i = true).
  { unfold flag_of. destruct (decide (i = Schema.id row)) as [->|Hne].
    - by rewrite upsert_lookup, merge_as_stored.
    - by rewrite upsert_lookup_ne. }
  destruct (process_row_cases env db row)
    as [E | [E | [[_ E] | [[He [e E]] | [He E]]]]]; rewrite E in H |- *; simpl in *;
    try (by left); try (left; by apply Hup).
  destruct (decide (i = Schema.id row)) as [->|Hne].
  - right. apply list_elem_of_here.
  - left. apply Hup. unfold flag_of in *.
    by rewrite flag_commit_lookup_ne, <- (upsert_lookup_ne db row i) in H.
Qed.

Lemma save_rows_flag envs rows usd_rate i : forall k db,
  flag_of (out_db (save_rows envs k db rows usd_rate)) i = true ->
  flag_of db i = true
  \/ exists d, (i, d) ∈ notify_calls (out_trace (save_rows envs k db rows usd_rate)).
Proof.
  induction rows as [|raw rest IH]; intros k db H; simpl in *; [by left|].
  destruct (Schema.__init__ usd_rate raw) as [row|e]; simpl in *; [|by left].
  assert (Hrow : flag_of (out_db (process_row (envs k) db row)) i = true ->
            flag_of db i = true
            \/ exists d, (i, d) ∈ notify_calls (out_trace (process_row (envs k) db row))).
  { intros H'. destruct (process_row_flag _ _ _ _ H') as [Hd|Hc]; [by left|].
    right. by eexists. }
  destruct (out_result (process_row (envs k) db row)); simpl in *; [|by apply Hrow].
  unfold notify_calls. rewrite omap_app.
  destruct (IH _ _ H) as [Hd|[d Hc]].
  - destruct (Hrow Hd) as [Hdb|[d Hc]]; [by left|].
    right. exists d. apply elem_of_app. by left.
  - right. exists d. apply elem_of_app. by right.
Qed.
End Run.




(** X8: every call of the notice service in a run is for a row of the
    sheet, header apart: it carries the primary key and the delivery date
    of that row, the date is strictly before the day read on that row's
    turn, and the flag of that key was not set when the run began. *)
Theorem only_due_rows_are_notified
    (envs : nat -> RowEnv) (db : table) (rows : list (list string))
    (usd_rate : float) (i : Z) (d : date) :
  (i, d) ∈ notify_calls (out_trace (_save_to_db envs db rows usd_rate)) ->
  exists j raw row,
    tail rows !! j = Some raw /\ Schema.__init__ usd_rate raw = Ok row
    /\ Schema.id row = i /\ Schema.delivery_date row = d
    /\ date_lt d (today (envs j)) = true
    /\ flag_of db i = false.
Proof. apply (save_rows_notify envs (tail rows) usd_rate i d 0). Qed.

Lemma only_due_rows_are_notified_witness :
  (7, day_2020_01_01)
    ∈ notify_calls (out_trace (_save_to_db all_quiet ∅ [header; row8; row7] f90))
  /\ exists j raw row,
      tail [header; row8; row7] !! j = Some raw /\ Schema.__init__ f90 raw = Ok row
      /\ Schema.id row = 7 /\ Schema.delivery_date row = day_2020_01_01
      /\ date_lt day_2020_01_01 (today (all_quiet j)) = true
      /\ flag_of ∅ 7 = false.
Proof.
  assert (H : (7, day_2020_01_01)
    ∈ notify_calls (out_trace (_save_to_db all_quiet ∅ [header; row8; row7] f90))).
  { vm_compute. apply list_elem_of_here. }
  split; [exact H|].
  exact (only_due_rows_are_notified all_quiet ∅ [header; row8; row7] f90 7 _ H).
Defined.

(** X9: a flag that is set after a run and was not set before it belongs
    to an order for which the run called the notice service. *)
Theorem flag_follows_a_notice
    (envs : nat -> RowEnv) (db : table) (rows : list (list string))
    (usd_rate : float) (i : Z) :
  flag_of (out_db (_save_to_db envs db rows usd_rate)) i = true ->
  flag_of db i = true
  \/ exists d, (i, d) ∈ notify_calls (out_trace (_save_to_db envs db rows usd_rate)).
Proof. apply save_rows_flag. Qed.

Lemma flag_follows_a_notice_witness :
  flag_of (out_db (_save_to_db all_quiet ∅ [header; row7] f90)) 7 = true
  /\ (flag_of ∅ 7 = true
      \/ exists d, (7, d) ∈ notify_calls
                     (out_trace (_save_to_db all_quiet ∅ [header; row7] f90))).
Proof.
  assert (H : flag_of (out_db (_save_to_db all_quiet ∅ [header; row7] f90)) 7 = true)
    by (vm_compute; reflexivity).
  split; [exact H|].
  exact (flag_follows_a_notice all_quiet ∅ [header; row7] f90 7 H).
Defined.

(** ** The last row of an order, and a second run *)

Section Again.
Implicit Types (env : RowEnv) (envs : nat -> RowEnv) (db : table)
               (row : Schema.t) (rows : list (list string)) (i : Z).

Lemma last_with_none usd_rate i rows :
  last_with usd_rate i rows = None ->
  Forall (fun raw => row_id usd_rate raw ≠ Some i) rows.
Proof.
  induction rows as [|raw rest IH]; simpl; [constructor|].
  destruct (last_with usd_rate i rest); [discriminate|].
  intros H. constructor; [|by apply IH].
  unfold row_id. destruct (Schema.__init__ usd_rate raw) as [row|]; [|done].
  destruct (decide (Schema.id row = i)); [discriminate|]. congruence.
Qed.

Lemma flag_of_upsert db row i : flag_of (upsert db row) i = flag_of db i.
Proof.
  unfold flag_of. destruct (decide (i = Schema.id row)) as [->|Hne].
  - by rewrite upsert_lookup, merge_as_stored.
  - by rewrite upsert_lookup_ne.
Qed.

Lemma flag_of_lookup db db' i : db !! i = db' !! i -> flag_of db i = flag_of db' i.
Proof. unfold flag_of. by intros ->. Qed.

(** A body that ends well has stored its row, with the flag found there. *)
Lemma process_row_ok_stored env db row :
  out_result (process_row env db row) = Ok () ->
  out_db (process_row env db row) !! Schema.id row
  = Some (as_stored row (flag_of (out_db (process_row env db row)) (Schema.id row))).
Proof.
  destruct (process_row_cases env db row)
    as [E | [E | [[_ E] | [[He [e E]] | [He E]]]]]; rewrite E; simpl;
    try discriminate; intros _.
  - by rewrite flag_of_upsert, upsert_lookup, merge_as_stored.
  - unfold flag_of. by rewrite flag_commit_lookup.
Qed.

(** After a run that ends well, an order of the sheet holds the
    attributes of its last row, and any other order what it held. *)
Lemma save_rows_last envs rows usd_rate i : forall k db,
  out_result (save_rows envs k db rows usd_rate) = Ok () ->
  out_db (save_rows envs k db rows usd_rate) !! i
  = match last_with usd_rate i rows with
    | Some row =>
        Some (as_stored row (flag_of (out_db (save_rows envs k db rows usd_rate)) i))
    | None => db !! i
    end.
Proof.
  induction rows as [|raw rest IH]; intros k db Hok; simpl in *; [done|].
  destruct (Schema.__init__ usd_rate raw) as [row|e] eqn:Hinit; simpl in *;
    [|discriminate].
  destruct (out_result (process_row (envs k) db row)) as [[]|e] eqn:Hrow;
    simpl in *; [|by rewrite Hrow in Hok].
  rewrite (IH _ _ Hok).
  destruct (last_with usd_rate i rest) as [r|] eqn:Hlast; [done|].
  assert (Hsame : out_db (save_rows envs (S k) (out_db (process_row (envs k) db row))
                            rest usd_rate) !! i
                  = out_db (process_row (envs k) db row) !! i).
  { apply save_rows_lookup_ne. by apply last_with_none. }
  destruct (decide (Schema.id row = i)) as [<-|Hne].
  - rewrite (flag_of_lookup _ _ _ Hsame). by apply process_row_ok_stored.
  - by apply process_row_lookup_ne.
Qed.

Lemma settled_after envs rows usd_rate : forall k db,
  (forall j, quiet (envs j) = true) ->
  Forall (fun raw => valid_row usd_rate raw = true) rows ->
  settled envs k (out_db (save_rows envs k db rows usd_rate)) rows usd_rate.
Proof.
  induction rows as [|raw rest IH]; intros k db Hq Hvalid j raw' row' Hj Hinit';
    [done|].
  inversion Hvalid as [|? ? Hraw Hrest]; subst. unfold valid_row in Hraw. simpl.
  destruct (Schema.__init__ usd_rate raw) as [row|e] eqn:Hinit; [|discriminate].
  rewrite (process_row_quiet (envs k) db row (Hq k)). simpl.
  destruct j as [|j]; simpl in Hj.
  - injection Hj as <-. rewrite Hinit in Hinit'. injection Hinit' as <-.
    rewrite Nat.add_0_r.
    destruct (date_lt (Schema.delivery_date row) (today (envs k))) eqn:Hd; [|by right].
    left. apply flag_of_true, save_rows_keeps_notified, flag_of_true.
    pose proof (Hq k) as Hquiet. unfold quiet in Hquiet.
    apply andb_true_iff in Hquiet as [Hquiet Hf].
    apply andb_true_iff in Hquiet as [Hquiet Hn].
    apply andb_true_iff in Hquiet as [Hu Hr].
    destruct (expired (envs k) (merge db row)) eqn:He.
    + rewrite (process_row_due _ db row Hu Hr He), Hn, Hf. simpl.
      unfold flag_of. by rewrite flag_commit_lookup.
    + rewrite (process_row_not_due _ db row Hu Hr He). simpl.
      rewrite flag_of_upsert.
      rewrite expired_merge, merge_as_stored, Hd in He. simpl in He.
      rewrite andb_true_r in He. by apply negb_false_iff in He.
  - replace (k + S j)%nat with (S k + j)%nat by lia.
    by apply (IH (S k) _ Hq Hrest j raw' row').
Qed.

Lemma run_from_settled envs rows usd_rate : forall k db,
  (forall j, quiet (envs j) = true) ->
  Forall (fun raw => valid_row usd_rate raw = true) rows ->
  settled envs k db rows usd_rate ->
  notify_calls (out_trace (save_rows envs k db rows usd_rate)) = []
  /\ forall i,
      out_db (save_rows envs k db rows usd_rate) !! i
      = match last_with usd_rate i rows with
        | Some row => Some (as_stored row (flag_of db i))
        | None => db !! i
        end.
Proof.
  induction rows as [|raw rest IH]; intros k db Hq Hvalid Hset; simpl; [done|].
  inversion Hvalid as [|? ? Hraw Hrest]; subst. unfold valid_row in Hraw.
  destruct (Schema.__init__ usd_rate raw) as [row|e] eqn:Hinit; [|discriminate].
  pose proof (Hq k) as Hquiet. unfold quiet in Hquiet.
  apply andb_true_iff in Hquiet as [Hquiet Hf].
  apply andb_true_iff in Hquiet as [Hquiet Hn].
  apply andb_true_iff in Hquiet as [Hu Hr].
  assert (He : expired (envs k) (merge db row) = false).
  { rewrite expired_merge, merge_as_stored. simpl.
    destruct (Hset 0%nat raw row eq_refl Hinit) as [-> | Hd]; [done|].
    rewrite Nat.add_0_r in Hd. rewrite Hd. apply andb_false_r. }
  rewrite (process_row_not_due _ db row Hu Hr He). simpl.
  assert (Hset' : settled envs (S k) (upsert db row) rest usd_rate).
  { intros j raw' row' Hj Hinit'. rewrite flag_of_upsert.
    replace (S k + j)%nat with (k + S j)%nat by lia.
    by apply (Hset (S j) raw' row'). }
  destruct (IH (S k) (upsert db row) Hq Hrest Hset') as [Hcalls Hdb].
  split; [exact Hcalls|].
  intros i. rewrite Hdb, flag_of_upsert.
  destruct (last_with usd_rate i rest); [done|].
  destruct (decide (Schema.id row = i)) as [<-|Hne].
  - by rewrite upsert_lookup, merge_as_stored.
  - by rewrite upsert_lookup_ne.
Qed.

Lemma date_lt_later (d t t' : date) :
  date_lt d t = true -> date_lt t' t = false -> date_lt d t' = true.
Proof.
  unfold date_lt. destruct d, t, t'; simpl. intros H H'.
  apply not_true_iff_false in H'.
  rewrite !orb_true_iff, !andb_true_iff, !orb_true_iff, !andb_true_iff,
    !Z.ltb_lt, !Z.eqb_eq in *. lia.
Qed.
End Again.



(** X11: a second run over the same sheet, with the same rate and the same
    days, after a run in which every row normalised and no collaborator
    failed, calls the notice service for no one, ends without an
    exception and leaves the table exactly as the first run left it. *)
Theorem second_run_changes_nothing
    (envs : nat -> RowEnv) (db : table) (rows : list (list string))
    (usd_rate : float) :
  (forall k, quiet (envs k) = true) ->
  Forall (fun raw => valid_row usd_rate raw = true) (tail rows) ->
  let first := _save_to_db envs db rows usd_rate in
  let second := _save_to_db envs (out_db first) rows usd_rate in
  out_db second = out_db first
  /\ notify_calls (out_trace second) = []
  /\ out_result second = Ok ().
Proof.
  intros Hq Hvalid first second. subst first second. unfold _save_to_db.
  set (F := out_db (save_rows envs 0 db (tail rows) usd_rate)).
  assert (Hok : out_result (save_rows envs 0 db (tail rows) usd_rate) = Ok ())
    by by apply save_rows_quiet.
  assert (Hset : settled envs 0 F (tail rows) usd_rate) by by apply settled_after.
  destruct (run_from_settled envs (tail rows) usd_rate 0 F Hq Hvalid Hset)
    as [Hcalls Hdb].
  split; [|split; [exact Hcalls|by apply save_rows_quiet]].
  apply map_eq. intros i. rewrite Hdb.
  pose proof (save_rows_last envs (tail rows) usd_rate i 0 db Hok) as Hfirst.
  fold F in Hfirst.
  destruct (last_with usd_rate i (tail rows)); [by rewrite Hfirst|done].
Qed.

Lemma second_run_changes_nothing_witness :
  (forall k, quiet (all_quiet k) = true)
  /\ Forall (fun raw => valid_row f90 raw = true) (tail [header; row7; row8; row7])
  /\ notify_calls (out_trace (_save_to_db all_quiet ∅ [header; row7; row8; row7] f90))
     = [(7, day_2020_01_01)]
  /\ notify_calls
       (out_trace (_save_to_db all_quiet
                     (out_db (_save_to_db all_quiet ∅ [header; row7; row8; row7] f90))
                     [header; row7; row8; row7] f90)) = []
  /\ out_db (_save_to_db all_quiet
               (out_db (_save_to_db all_quiet ∅ [header; row7; row8; row7] f90))
               [header; row7; row8; row7] f90)
     = out_db (_save_to_db all_quiet ∅ [header; row7; row8; row7] f90).
Proof.
  assert (Hq : forall k, quiet (all_quiet k) = true) by (intros k; reflexivity).
  assert (Hv : Forall (fun raw => valid_row f90 raw = true)
                      (tail [header; row7; row8; row7])) by (repeat constructor).
  destruct (second_run_changes_nothing all_quiet ∅ [header; row7; row8; row7] f90 Hq Hv)
    as (Hdb & Hcalls & _).
  split; [exact Hq|]. split; [exact Hv|]. split; [vm_compute; reflexivity|].
  split; [exact Hcalls|exact Hdb].
Defined.



(** X13: a notice that failed is sent again on any later day. When a
    row is due and the notice service raises, handling the same row again
    with the storage answering, on the same day or on any day that is not
    before it, calls the notice service for that row again, and stores the
    flag when the call and the second commit go through. *)
Theorem failed_notice_is_retried_on_any_later_day
    (env env' : RowEnv) (db : table) (row : Schema.t) :
  upsert_ok env = true -> refresh_ok env = true ->
  expired env (merge db row) = true -> notify_ok env = false ->
  date_lt (today env') (today env) = false ->
  upsert_ok env' = true -> refresh_ok env' = true ->
  let again := process_row env' (out_db (process_row env db row)) row in
  notify_calls (out_trace again) = [(Schema.id row, Schema.delivery_date row)]
  /\ (notify_ok env' = true -> flag_ok env' = true ->
      notified_at (out_db again) (Schema.id row) = Some true).
Proof.
  intros Hu Hr He Hn Hlater Hu' Hr' again. subst again.
  rewrite (process_row_due env db row Hu Hr He), Hn. simpl.
  assert (He' : expired env' (merge (upsert db row) row) = true).
  { rewrite expired_merge, merge_upsert.
    rewrite expired_merge in He. apply andb_true_iff in He as [-> Hd]. simpl.
    by apply (date_lt_later _ (today env)). }
  rewrite (process_row_due env' _ row Hu' Hr' He'). simpl. split.
  - by destruct (notify_ok env'), (flag_ok env').
  - intros -> ->. simpl. unfold notified_at. by rewrite flag_commit_lookup.
Qed.

Lemma failed_notice_is_retried_on_any_later_day_witness :
  expired env_bot_down (merge ∅ rec7) = true
  /\ date_lt (today env_quiet) (today env_bot_down) = false
  /\ notify_calls
       (out_trace (process_row env_quiet (out_db (process_row env_bot_down ∅ rec7)) rec7))
     = [(7, day_2020_01_01)]
  /\ notified_at
       (out_db (process_row env_quiet (out_db (process_row env_bot_down ∅ rec7)) rec7)) 7
     = Some true.
Proof.
  assert (He : expired env_bot_down (merge ∅ rec7) = true) by (vm_compute; reflexivity).
  assert (Hl : date_lt (today env_quiet) (today env_bot_down) = false)
    by (vm_compute; reflexivity).
  destruct (failed_notice_is_retried_on_any_later_day env_bot_down env_quiet ∅ rec7
              eq_refl eq_refl He eq_refl Hl eq_refl eq_refl) as [Hc Hf].
  split; [exact He|]. split; [exact Hl|]. split; [exact Hc|exact (Hf eq_refl eq_refl)].
Defined.

(** ** The texts that [int] accepts *)

Section IntText.
Implicit Types (c : ascii) (s w t r : list ascii).

Local Abbreviation ok_int := (fun c => int_char c = true).

Lemma lstrip_int_chars s : Forall ok_int (lstrip s) -> Forall ok_int s.
Proof.
  induction s as [|c s IH]; simpl; [done|].
  destruct (py_isspace c) eqn:Hc; [|done].
  intros H. constructor; [|by apply IH].
  unfold int_char. rewrite Hc. by rewrite orb_true_r.
Qed.

Lemma lstrip_nil_chars s : lstrip s = [] -> Forall ok_int s.
Proof. intros H. apply lstrip_int_chars. rewrite H. constructor. Qed.

Lemma take_sign_int_chars s b t :
  take_sign s = (b, t) -> exists w, s = w ++ t /\ Forall ok_int w.
Proof.
  unfold take_sign. destruct s as [|c s]; [intros [= <- <-]; by exists []|].
  destruct (Ascii.eqb_spec c "-") as [->|_];
    [intros [= <- <-]; exists ["-"%char]; split; [done|by repeat constructor]|].
  destruct (Ascii.eqb_spec c "+") as [->|_];
    [intros [= <- <-]; exists ["+"%char]; split; [done|by repeat constructor]|].
  intros [= <- <-]. by exists [].
Qed.

Lemma scan_int_chars s : forall prev_us acc n v d tus r,
  scan_int prev_us acc n s = Some (v, d, tus, r) ->
  exists w, s = w ++ r /\ Forall ok_int w.
Proof.
  induction s as [|c s IH]; intros prev_us acc n v d tus r H; simpl in H.
  - injection H as <- <- <- <-. by exists [].
  - destruct (is_underscore c) eqn:Hu.
    + destruct prev_us; [discriminate|].
      destruct (IH _ _ _ _ _ _ _ H) as (w & -> & Hw).
      exists (c :: w). split; [done|]. constructor; [|exact Hw].
      unfold int_char. rewrite Hu. by rewrite orb_true_r.
    + destruct (is_digit c) eqn:Hd.
      * destruct (IH _ _ _ _ _ _ _ H) as (w & -> & Hw).
        exists (c :: w). split; [done|]. constructor; [|exact Hw].
        unfold int_char. by rewrite Hd.
      * injection H as <- <- <- <-. by exists [].
Qed.

Lemma int_of_chars_chars s n : int_of_chars s = Ok n -> Forall ok_int s.
Proof.
  unfold int_of_chars. intros H. apply lstrip_int_chars.
  destruct (take_sign (lstrip s)) as [neg s1] eqn:Hsgn.
  destruct (take_sign_int_chars _ _ _ Hsgn) as (w0 & -> & Hw0).
  apply Forall_app_2; [exact Hw0|].
  destruct s1 as [|c s1]; [discriminate|].
  destruct (is_underscore c); [discriminate|].
  destruct (scan_int false 0 0 (c :: s1)) as [[[[v d] tus] rest]|] eqn:Hscan;
    [|discriminate].
  destruct (scan_int_chars _ _ _ _ _ _ _ _ Hscan) as (w & -> & Hw).
  destruct tus; [discriminate|]. destruct (d =? 0); [discriminate|].
  destruct (lstrip rest) eqn:Hrest; [|discriminate].
  apply Forall_app_2; [exact Hw|by apply lstrip_nil_chars].
Qed.
End IntText.


